(** * A shallow embedding of the video, dashboard and playlist controllers

    The development follows [src/controllers/video.controller.js],
    the dashboard controller ([getChannelStats], [getChannelVideos]) and
    [src/controllers/playlist.controller.js].  Every handler becomes a
    function from a request and the current contents of the collections
    to an outcome and the new contents of the collections.  What the
    handlers delegate to mongoose, MongoDB, Cloudinary and the model
    files is either written out as a small executable model or taken as
    a variable of the section that holds the handlers. *)

From Stdlib Require Import ZArith List Bool Ascii String Lia Permutation Sorted.
Import ListNotations.
Local Open Scope string_scope.
Local Open Scope Z_scope.

(** ** JavaScript values the handlers compute with *)

Module JS.

(** [undefined] is [None]; request fields are strings when present. *)
Definition truthy (o : option string) : bool :=
  match o with
  | Some s => negb (String.eqb s "")
  | None => false
  end.

(** White space of [String.prototype.trim] and of [parseInt], on the
    character codes below 128. *)
Definition is_space (c : ascii) : bool :=
  existsb (Nat.eqb (nat_of_ascii c)) [9; 10; 11; 12; 13; 32]%nat.

Fixpoint drop_space (l : list ascii) : list ascii :=
  match l with
  | c :: l' => if is_space c then drop_space l' else l
  | [] => []
  end.

Definition trim (s : string) : string :=
  string_of_list_ascii
    (rev (drop_space (rev (drop_space (list_ascii_of_string s))))).

(** Numbers: [None] is [NaN], [Some z] the integer [z].  The handlers only
    produce integers (results of [parseInt], counts, sums and products of
    those); doubles hold them exactly up to [MAX_SAFE_INTEGER]. *)
Definition number := option Z.


Definition sub (a b : number) : number :=
  match a, b with Some x, Some y => Some (x - y) | _, _ => None end.

Definition mul (a b : number) : number :=
  match a, b with Some x, Some y => Some (x * y) | _, _ => None end.

Definition digit_of (radix : Z) (c : ascii) : option Z :=
  let n := Z.of_nat (nat_of_ascii c) in
  let d :=
    if (48 <=? n) && (n <=? 57) then Some (n - 48)
    else if (97 <=? n) && (n <=? 122) then Some (n - 87)
    else if (65 <=? n) && (n <=? 90) then Some (n - 55)
    else None in
  match d with
  | Some v => if v <? radix then Some v else None
  | None => None
  end.

(** The longest prefix of digits, read in [radix]; [None] when it is empty. *)
Fixpoint digits (radix : Z) (acc : option Z) (l : list ascii) : option Z :=
  match l with
  | c :: l' =>
      match digit_of radix c with
      | Some d =>
          digits radix (Some (radix * match acc with Some a => a | None => 0 end + d)) l'
      | None => acc
      end
  | [] => acc
  end.

Definition strip_hex (l : list ascii) : option (list ascii) :=
  match l with
  | "0"%char :: "x"%char :: l' => Some l'
  | "0"%char :: "X"%char :: l' => Some l'
  | _ => None
  end.

(** [parseInt(s)] without a radix argument. *)
Definition parseInt (s : string) : number :=
  let l := drop_space (list_ascii_of_string s) in
  let '(sign, l) :=
    match l with
    | "-"%char :: l' => (-1, l')
    | "+"%char :: l' => (1, l')
    | _ => (1, l)
    end in
  let r :=
    match strip_hex l with
    | Some l' => digits 16 None l'
    | None => digits 10 None l
    end in
  match r with
  | Some v => Some (sign * v)
  | None => None
  end.

(** [Math.ceil(t / l)] for integers [t] and [l], [l] positive. *)
Definition ceil_div (t l : Z) : Z := - ((- t) / l).

End JS.

(** ** Documents and collections *)

(** An [ObjectId] is represented by its canonical string, the value of
    [toString()]; comparing two identifiers through [toString()] is
    [String.eqb] on the representatives. *)
Definition ObjectId := string.

(** Field values of the documents that reach a [$project] or a [$sort]. *)
Inductive Scalar :=
| VNull
| VNum (z : Z)
| VStr (s : string)
| VId (o : ObjectId)
| VBool (b : bool)
| VDate (t : Z)
| VIds (l : list ObjectId).

Definition Doc := list (string * Scalar).

Definition doc_get (d : Doc) (k : string) : option Scalar :=
  option_map snd (find (fun kv => String.eqb (fst kv) k) d).

Definition doc_keys (d : Doc) : list string := map fst d.

(** Modelled from the spec: the User schema (models/user.model.js is not
    among the sources); the attributes are those of the data model's User
    row, under the names the [$project] stages and the README use. *)
Record User := {
  u_id : ObjectId;
  username : string;
  email : string;
  fullName : string;
  avatar : string;
  coverImage : option string;
  watchHistory : list ObjectId;
  password : string;
  refreshToken : option string
}.

Definition opt_field (k : string) (o : option string) : Doc :=
  match o with Some s => [(k, VStr s)] | None => [] end.

(** The stored document of a user, field by field. *)
Definition user_doc (u : User) : Doc :=
  ([("_id", VId (u_id u)); ("username", VStr (username u));
    ("email", VStr (email u)); ("fullName", VStr (fullName u));
    ("avatar", VStr (avatar u))]
   ++ opt_field "coverImage" (coverImage u)
   ++ [("watchHistory", VIds (watchHistory u)); ("password", VStr (password u))]
   ++ opt_field "refreshToken" (refreshToken u))%list.

(** The fields of a video that the controllers read or write
    (models/video.model.js is not among the sources). *)
Record Video := {
  v_id : ObjectId;
  videoFile : string;
  thumbnail : string;
  title : string;
  description : string;
  duration : Z;
  views : Z;
  isPublished : bool;
  v_owner : ObjectId;
  createdAt : Z
}.

(** A playlist; [name] and [description] are optional because
    [createPlaylist] can hand [undefined] to [Playlist.create]. *)
Record Playlist := {
  p_id : ObjectId;
  p_name : option string;
  p_description : option string;
  p_videos : list ObjectId;
  p_owner : ObjectId
}.

Record Subscription := {
  subscriber : ObjectId;
  channel : ObjectId
}.

(** A like targets a video, a comment or a tweet; only the video
    reference is read by the dashboard. *)
Record Like := {
  l_video : option ObjectId;
  likedBy : ObjectId
}.

Record Store := {
  users : list User;
  videos : list Video;
  playlists : list Playlist;
  subscriptions : list Subscription;
  likes : list Like
}.

Definition set_videos (st : Store) (vs : list Video) : Store :=
  {| users := users st; videos := vs; playlists := playlists st;
     subscriptions := subscriptions st; likes := likes st |}.

Definition set_playlists (st : Store) (ps : list Playlist) : Store :=
  {| users := users st; videos := videos st; playlists := ps;
     subscriptions := subscriptions st; likes := likes st |}.

(** Update and removal of the first document that satisfies [p]
    ([updateOne], [deleteOne] and what [save] and the [findById...]
    helpers issue). *)
Fixpoint update_first {A} (p : A -> bool) (f : A -> A) (l : list A) : list A :=
  match l with
  | x :: l' => if p x then f x :: l' else x :: update_first p f l'
  | [] => []
  end.

Fixpoint remove_first {A} (p : A -> bool) (l : list A) : list A :=
  match l with
  | x :: l' => if p x then l' else x :: remove_first p l'
  | [] => []
  end.

Definition has_video_id (i : ObjectId) (v : Video) : bool := String.eqb (v_id v) i.
Definition has_playlist_id (i : ObjectId) (p : Playlist) : bool := String.eqb (p_id p) i.

Definition set_views (n : Z) (v : Video) : Video :=
  {| v_id := v_id v; videoFile := videoFile v; thumbnail := thumbnail v;
     title := title v; description := description v; duration := duration v;
     views := n; isPublished := isPublished v; v_owner := v_owner v;
     createdAt := createdAt v |}.

Definition set_isPublished (b : bool) (v : Video) : Video :=
  {| v_id := v_id v; videoFile := videoFile v; thumbnail := thumbnail v;
     title := title v; description := description v; duration := duration v;
     views := views v; isPublished := b; v_owner := v_owner v;
     createdAt := createdAt v |}.

(** [$set] of the fields of [updateFields] that are present. *)
Definition set_fields (t d th : option string) (v : Video) : Video :=
  {| v_id := v_id v; videoFile := videoFile v;
     thumbnail := match th with Some x => x | None => thumbnail v end;
     title := match t with Some x => x | None => title v end;
     description := match d with Some x => x | None => description v end;
     duration := duration v; views := views v; isPublished := isPublished v;
     v_owner := v_owner v; createdAt := createdAt v |}.

Definition set_p_videos (l : list ObjectId) (p : Playlist) : Playlist :=
  {| p_id := p_id p; p_name := p_name p; p_description := p_description p;
     p_videos := l; p_owner := p_owner p |}.

Definition set_p_name (n : string) (p : Playlist) : Playlist :=
  {| p_id := p_id p; p_name := Some n; p_description := p_description p;
     p_videos := p_videos p; p_owner := p_owner p |}.

Definition set_p_description (d : string) (p : Playlist) : Playlist :=
  {| p_id := p_id p; p_name := p_name p; p_description := Some d;
     p_videos := p_videos p; p_owner := p_owner p |}.

(** ** Requests and outcomes *)

(** [req.user._id] is present on the routes behind the authentication
    middleware; [params], [query] and [body] are looked up by name. *)
Record Request := {
  user : option ObjectId;
  params : string -> option string;
  query : string -> option string;
  body : string -> option string;
  file : option string;
  files : string -> option string
}.

(** What a handler ends with: a response built with [ApiResponse], an
    [ApiError] thrown by the handler, or another exception (a driver,
    schema or type error) that reaches [asyncHandler]. *)
Inductive Outcome (A : Type) :=
| ApiResponse (statusCode : Z) (data : A) (message : string)
| ApiError (statusCode : Z) (message : string)
| Thrown (name : string).
Arguments ApiResponse {A}.
Arguments ApiError {A}.
Arguments Thrown {A}.

(** A path parameter that the route did not bind reads as the empty string. *)
Definition param (req : Request) (k : string) : string :=
  match params req k with Some s => s | None => "" end.

(** ** The parts of the aggregation engine that the pipelines use *)

Module Mongo.

(** An inclusion [$project]: [_id] and the listed fields, in the order of
    the document. *)
Definition project (fields : list string) (d : Doc) : Doc :=
  filter (fun kv => String.eqb (fst kv) "_id" || existsb (String.eqb (fst kv)) fields) d.

(** The value a [$sort] reads at a path: a scalar, an embedded document,
    or null when the path is missing. *)
Inductive SortKey :=
| KVal (v : Scalar)
| KDoc (d : Doc).

(** Comparison order of the value types. *)
Definition rank (v : Scalar) : Z :=
  match v with
  | VNull => 0
  | VNum _ => 1
  | VStr _ => 2
  | VIds _ => 4
  | VId _ => 5
  | VBool _ => 6
  | VDate _ => 7
  end.

Definition rank_doc : Z := 3.

Fixpoint compare_ids (a b : list ObjectId) : comparison :=
  match a, b with
  | [], [] => Eq
  | [], _ :: _ => Lt
  | _ :: _, [] => Gt
  | x :: a', y :: b' =>
      match String.compare x y with
      | Eq => compare_ids a' b'
      | c => c
      end
  end.

Definition compare_scalar (a b : Scalar) : comparison :=
  match a, b with
  | VNull, VNull => Eq
  | VNum x, VNum y => Z.compare x y
  | VStr x, VStr y => String.compare x y
  | VId x, VId y => String.compare x y
  | VBool x, VBool y => Bool.compare x y
  | VDate x, VDate y => Z.compare x y
  | VIds x, VIds y => compare_ids x y
  | _, _ => Z.compare (rank a) (rank b)
  end.

(** Documents compare field by field: type, then name, then value. *)
Fixpoint compare_doc (a b : Doc) : comparison :=
  match a, b with
  | [], [] => Eq
  | [], _ :: _ => Lt
  | _ :: _, [] => Gt
  | (ka, va) :: a', (kb, vb) :: b' =>
      match Z.compare (rank va) (rank vb) with
      | Eq =>
          match String.compare ka kb with
          | Eq =>
              match compare_scalar va vb with
              | Eq => compare_doc a' b'
              | c => c
              end
          | c => c
          end
      | c => c
      end
  end.

Definition compare_key (a b : SortKey) : comparison :=
  match a, b with
  | KVal x, KVal y => compare_scalar x y
  | KDoc x, KDoc y => compare_doc x y
  | KVal x, KDoc _ => Z.compare (rank x) rank_doc
  | KDoc _, KVal y => Z.compare rank_doc (rank y)
  end.

(** [dir] is the [1] or [-1] of the sort specification. *)
Definition before (dir : Z) (a b : SortKey) : bool :=
  match compare_key a b with
  | Eq => true
  | Lt => 0 <=? dir
  | Gt => dir <? 0
  end.

Fixpoint insert_by {A} (le : A -> A -> bool) (x : A) (l : list A) : list A :=
  match l with
  | y :: l' => if le x y then x :: l else y :: insert_by le x l'
  | [] => [x]
  end.

Definition sort_by {A} (le : A -> A -> bool) (l : list A) : list A :=
  fold_right (insert_by le) [] l.

(** The components of a dotted field path. *)
Fixpoint components (cur : list ascii) (l : list ascii) : list (list ascii) :=
  match l with
  | c :: l' =>
      if Ascii.eqb c "."%char then rev cur :: components [] l'
      else components (c :: cur) l'
  | [] => [rev cur]
  end.

Definition path (s : string) : list string :=
  map string_of_list_ascii (components [] (list_ascii_of_string s)).

(** A sort key is refused when a component of its path is empty or starts
    with a dollar sign. *)
Definition valid_component (s : string) : bool :=
  match s with
  | EmptyString => false
  | String c _ => negb (Ascii.eqb c "$"%char)
  end.

Definition validFieldPath (s : string) : bool := forallb valid_component (path s).

(** [$sort] on one field. *)
Definition sort {A} (key : list string -> A -> SortKey) (field : string) (dir : Z)
    (l : list A) : option (list A) :=
  if validFieldPath field
  then Some (sort_by (fun x y => before dir (key (path field) x) (key (path field) y)) l)
  else None.

(** [$skip] takes a non-negative number.  The stage also refuses a number
    that is no 64-bit integer; the model leaves that bound out, and is
    exact for the numbers up to [JS.MAX_SAFE_INTEGER], which the statements
    that assert a response assume. *)
Definition skip {A} (n : JS.number) (l : list A) : option (list A) :=
  match n with
  | Some s => if 0 <=? s then Some (skipn (Z.to_nat s) l) else None
  | None => None
  end.

(** [$limit] takes a positive number, with the same bound on its size as
    [$skip]. *)
Definition limit {A} (n : JS.number) (l : list A) : option (list A) :=
  match n with
  | Some k => if 1 <=? k then Some (firstn (Z.to_nat k) l) else None
  | None => None
  end.

Definition count {A} (p : A -> bool) (l : list A) : Z :=
  Z.of_nat (List.length (filter p l)).

End Mongo.

(** The document of a stored video. *)
Definition video_doc (v : Video) : Doc :=
  [("_id", VId (v_id v)); ("videoFile", VStr (videoFile v));
   ("thumbnail", VStr (thumbnail v)); ("title", VStr (title v));
   ("description", VStr (description v)); ("duration", VNum (duration v));
   ("views", VNum (views v)); ("isPublished", VBool (isPublished v));
   ("owner", VId (v_owner v)); ("createdAt", VDate (createdAt v))].

(** An element of the feed: the video, with its [owner] field replaced
    by [item_owner], the first element of the [$lookup] result ([None]
    when the lookup found no user). *)
Record VideoItem := {
  item_video : Video;
  item_owner : option Doc
}.

(** An element of the channel listing: the video and its [likesCount]. *)
Record ChannelVideoItem := {
  cv_video : Video;
  likesCount : Z
}.

Definition scalar_or_null (o : option Scalar) : Mongo.SortKey :=
  match o with Some v => Mongo.KVal v | None => Mongo.KVal VNull end.

Definition item_key (p : list string) (it : VideoItem) : Mongo.SortKey :=
  match p with
  | [f] =>
      if String.eqb f "owner"
      then match item_owner it with Some d => Mongo.KDoc d | None => Mongo.KVal VNull end
      else scalar_or_null (doc_get (video_doc (item_video it)) f)
  | [f; g] =>
      if String.eqb f "owner"
      then match item_owner it with
           | Some d => scalar_or_null (doc_get d g)
           | None => Mongo.KVal VNull
           end
      else Mongo.KVal VNull
  | _ => Mongo.KVal VNull
  end.

Definition channel_item_key (p : list string) (it : ChannelVideoItem) : Mongo.SortKey :=
  match p with
  | [f] =>
      if String.eqb f "likesCount" then Mongo.KVal (VNum (likesCount it))
      else scalar_or_null (doc_get (video_doc (cv_video it)) f)
  | _ => Mongo.KVal VNull
  end.

Record Pagination := {
  currentPage : JS.number;
  totalPages : JS.number;
  totalVideos : Z;
  limit : JS.number
}.

(** [Math.ceil(total / limit)]; [None] stands for the results that are not
    integers ([NaN] and the infinities of a zero or missing limit). *)
Definition ceil_pages (total : Z) (l : JS.number) : JS.number :=
  match l with
  | Some k => if k =? 0 then None else Some (JS.ceil_div total k)
  | None => None
  end.

(** [parseInt] of a query parameter with a numeric default. *)
Definition parseInt_or (default : Z) (o : option string) : JS.number :=
  match o with
  | Some s => JS.parseInt s
  | None => Some default
  end.

Record ChannelStats := {
  totalSubscribers : Z;
  cs_totalVideos : Z;
  totalViews : Z;
  totalLikes : Z
}.

(** [x || 0] on an optional number. *)
Definition or_zero (o : option Z) : Z :=
  match o with
  | Some z => z
  | None => 0
  end.

(** What [uploadOnCloudinary] can do: return the uploaded asset, return
    [null], or throw. *)
Inductive UploadResult :=
| Uploaded (secure_url : string) (asset_duration : Z)
| UploadNull
| UploadThrows (message : string).

(** The filter object that [getAllVideos] fills in, key by key. *)
Record MatchConditions := {
  mc_or : option string;
  mc_owner : option ObjectId;
  mc_isPublished : option bool
}.

Definition mc_empty : MatchConditions :=
  {| mc_or := None; mc_owner := None; mc_isPublished := None |}.

Definition mc_set_or (q : string) (mc : MatchConditions) : MatchConditions :=
  {| mc_or := Some q; mc_owner := mc_owner mc; mc_isPublished := mc_isPublished mc |}.

Definition mc_set_owner (o : ObjectId) (mc : MatchConditions) : MatchConditions :=
  {| mc_or := mc_or mc; mc_owner := Some o; mc_isPublished := mc_isPublished mc |}.

Definition mc_set_isPublished (b : bool) (mc : MatchConditions) : MatchConditions :=
  {| mc_or := mc_or mc; mc_owner := mc_owner mc; mc_isPublished := Some b |}.

Definition opt_eqb (a b : option string) : bool :=
  match a, b with
  | Some x, Some y => String.eqb x y
  | None, None => true
  | _, _ => false
  end.

(** A playlist with its video references populated.  [pp_playlist] is the
    stored document the response is built from; the response shows its
    fields other than [p_videos], and [pp_videos] in the place of the
    references. *)
Record PopulatedPlaylist := {
  pp_playlist : Playlist;
  pp_videos : list Video
}.

(** ** Properties that the statements below use *)

(** The four fields that the [$project] of the owner lookup leaves. *)
Definition owner_view (u : User) : Doc :=
  [("_id", VId (u_id u)); ("username", VStr (username u));
   ("fullName", VStr (fullName u)); ("avatar", VStr (avatar u))].

(** The owner sub-object of an item: the view of the user the video's
    owner reference resolves to, and absent when it resolves to none. *)
Definition owner_shape (st : Store) (it : VideoItem) : Prop :=
  match item_owner it with
  | Some d =>
      doc_keys d = ["_id"; "username"; "fullName"; "avatar"] /\
      exists u, In u (users st) /\ u_id u = v_owner (item_video it) /\ d = owner_view u
  | None => forall u, In u (users st) -> u_id u <> v_owner (item_video it)
  end.


(** How one request can change the collection of videos: not at all, by
    one insertion under a new identifier, by an update of the first video
    with some identifier that keeps the identifier and does not lower the
    view counter, or by removing the first video with some identifier. *)
Inductive videos_change (l : list Video) : option ObjectId -> list Video -> Prop :=
| vc_same o : videos_change l o l
| vc_insert nv :
    existsb (has_video_id (v_id nv)) l = false ->
    videos_change l (Some (v_id nv)) (l ++ [nv])
| vc_update o i f :
    (forall v, v_id (f v) = v_id v) ->
    (forall v, views v <= views (f v)) ->
    videos_change l o (update_first (has_video_id i) f l)
| vc_remove o i : videos_change l o (remove_first (has_video_id i) l).

(** ** Concrete collaborators and data for the examples *)

Module Sample.

Definition is_hex (c : ascii) : bool :=
  match JS.digit_of 16 c with Some _ => true | None => false end.

(** Twenty-four hexadecimal digits. *)
Definition isValidObjectId (s : string) : bool :=
  Nat.eqb (String.length s) 24 && forallb is_hex (list_ascii_of_string s).

Definition lower_char (c : ascii) : ascii :=
  let n := nat_of_ascii c in
  if Nat.leb 65 n && Nat.leb n 90 then ascii_of_nat (n + 32) else c.

Definition lower (s : string) : string :=
  string_of_list_ascii (map lower_char (list_ascii_of_string s)).

(** The identifier a hexadecimal string denotes, in lower case. *)
Definition toObjectId (s : string) : ObjectId := lower s.

(** Patterns without metacharacters: a case-insensitive substring test. *)
Definition regex (pattern : string) : option (string -> bool) :=
  Some (fun subject =>
          match String.index 0 (lower pattern) (lower subject) with
          | Some _ => true
          | None => false
          end).

Definition uploadOnCloudinary (path folder : string) : UploadResult :=
  Uploaded ("https://res.cloudinary.com/" ++ folder ++ "/" ++ path) 60.

Definition alice_id : ObjectId := "a00000000000000000000001".
Definition bob_id : ObjectId := "b00000000000000000000002".
Definition carol_id : ObjectId := "c00000000000000000000003".

Definition alice : User :=
  {| u_id := alice_id; username := "alice"; email := "alice@example.org";
     fullName := "Alice A"; avatar := "https://img.example.org/alice.png";
     coverImage := None; watchHistory := []; password := "$2b$10$hash-a";
     refreshToken := Some "token-a" |}.

Definition bob : User :=
  {| u_id := bob_id; username := "bob"; email := "bob@example.org";
     fullName := "Bob B"; avatar := "https://img.example.org/bob.png";
     coverImage := Some "https://img.example.org/bob-cover.png";
     watchHistory := []; password := "$2b$10$hash-b"; refreshToken := None |}.

Definition carol : User :=
  {| u_id := carol_id; username := "carol"; email := "carol@example.org";
     fullName := "Carol C"; avatar := "https://img.example.org/carol.png";
     coverImage := None; watchHistory := []; password := "$2b$10$hash-c";
     refreshToken := None |}.

Definition v1_id : ObjectId := "000000000000000000000011".
Definition v2_id : ObjectId := "000000000000000000000012".
Definition v3_id : ObjectId := "000000000000000000000013".

Definition v1 : Video :=
  {| v_id := v1_id; videoFile := "https://cdn.example.org/v1.mp4";
     thumbnail := "https://cdn.example.org/v1.png"; title := "Intro";
     description := "first video"; duration := 60; views := 5;
     isPublished := true; v_owner := alice_id; createdAt := 100 |}.

Definition v2 : Video :=
  {| v_id := v2_id; videoFile := "https://cdn.example.org/v2.mp4";
     thumbnail := "https://cdn.example.org/v2.png"; title := "Draft";
     description := "not yet public"; duration := 30; views := 0;
     isPublished := false; v_owner := alice_id; createdAt := 200 |}.

Definition v3 : Video :=
  {| v_id := v3_id; videoFile := "https://cdn.example.org/v3.mp4";
     thumbnail := "https://cdn.example.org/v3.png"; title := "Travel";
     description := "a trip"; duration := 90; views := 7;
     isPublished := true; v_owner := bob_id; createdAt := 300 |}.

Definition pl1_id : ObjectId := "0000000000000000000000f1".

Definition pl1 : Playlist :=
  {| p_id := pl1_id; p_name := Some "Favorites"; p_description := Some "x";
     p_videos := [v1_id]; p_owner := alice_id |}.

Definition store : Store :=
  {| users := [alice; bob; carol];
     videos := [v1; v2; v3];
     playlists := [pl1];
     subscriptions := [{| subscriber := bob_id; channel := alice_id |}];
     likes := [{| l_video := Some v1_id; likedBy := bob_id |}] |}.


Definition lookup_in (l : list (string * string)) (k : string) : option string :=
  option_map snd (find (fun kv => String.eqb (fst kv) k) l).

(** A request without uploaded files. *)
Definition request (caller : option ObjectId) (ps qs bs : list (string * string)) : Request :=
  {| user := caller; params := lookup_in ps; query := lookup_in qs;
     body := lookup_in bs; file := None; files := fun _ => None |}.

Definition pl2_id : ObjectId := "0000000000000000000000f2".

(** The public feed without parameters, and with [page=0]. *)
Definition req_feed : Request := request None [] [] [].


(** Anonymous fetches of the published [v1] and of the unpublished [v2]. *)
Definition req_video1 : Request := request None [("videoId", v1_id)] [] [].
Definition req_video2 : Request := request None [("videoId", v2_id)] [] [].

(** alice toggles her video [v2]; bob deletes his video [v3]. *)
Definition req_toggle : Request := request (Some alice_id) [("videoId", v2_id)] [] [].
Definition req_delete3 : Request := request (Some bob_id) [("videoId", v3_id)] [] [].

Definition req_stats_carol : Request := request (Some carol_id) [] [] [].

(** alice adds [v1], which her playlist holds, and removes [v3], which it
    does not hold. *)
Definition req_add_again : Request :=
  request (Some alice_id) [("playlistId", pl1_id); ("videoId", v1_id)] [] [].
Definition req_remove_absent : Request :=
  request (Some alice_id) [("playlistId", pl1_id); ("videoId", v3_id)] [] [].

(** bob, who does not own the playlist, adds [v3] to it and removes [v1]
    from it. *)
Definition req_bob_adds : Request :=
  request (Some bob_id) [("playlistId", pl1_id); ("videoId", v3_id)] [] [].
Definition req_bob_removes : Request :=
  request (Some bob_id) [("playlistId", pl1_id); ("videoId", v1_id)] [] [].

(** bob creates a playlist and sends no name. *)
Definition req_create_nameless : Request :=
  request (Some bob_id) [] [] [("description", "x")].


(** The elements of the feed for [v3] and [v1]. *)
Definition item3 : VideoItem := {| item_video := v3; item_owner := Some (owner_view bob) |}.
Definition item1 : VideoItem := {| item_video := v1; item_owner := Some (owner_view alice) |}.

(** Further requests on the sample store. *)
Definition v4_id : ObjectId := "000000000000000000000014".
Definition missing_id : ObjectId := "0000000000000000000000aa".

Definition req_bob_deletes1 : Request :=
  request (Some bob_id) [("videoId", v1_id)] [] [].
Definition req_bob_renames1 : Request :=
  request (Some bob_id) [("videoId", v1_id)] [] [("title", "Taken over")].
Definition req_alice_renames1 : Request :=
  request (Some alice_id) [("videoId", v1_id)] [] [("title", "A new title"); ("description", "")].
Definition req_alice_unpublishes1 : Request :=
  request (Some alice_id) [("videoId", v1_id)] [] [].
Definition req_alice_describes_pl1 : Request :=
  request (Some alice_id) [("playlistId", pl1_id)] [] [("description", "Best of")].
Definition req_alice_deletes_pl1 : Request :=
  request (Some alice_id) [("playlistId", pl1_id)] [] [].
Definition req_alice_adds3 : Request :=
  request (Some alice_id) [("playlistId", pl1_id); ("videoId", v3_id)] [] [].
Definition req_alice_adds_missing : Request :=
  request (Some alice_id) [("playlistId", pl1_id); ("videoId", missing_id)] [] [].
Definition req_stats_alice : Request := request (Some alice_id) [] [] [].
Definition req_feed_filtered : Request :=
  request None [] [("userId", alice_id); ("query", "intro")] [].
Definition req_feed_by_views : Request :=
  request None [] [("sortBy", "views"); ("sortType", "asc")] [].
Definition req_publish : Request :=
  {| user := Some carol_id; params := fun _ => None; query := fun _ => None;
     body := lookup_in [("title", "Hello"); ("description", "world")];
     file := None;
     files := lookup_in [("videoFile", "a.mp4"); ("thumbnail", "a.png")] |}.
Definition req_bob_creates_favorites : Request :=
  request (Some bob_id) [] [] [("name", "Favorites"); ("description", "mine")].
Definition req_playlist1 : Request := request None [("playlistId", pl1_id)] [] [].
Definition req_playlists_of_alice : Request := request None [("userId", alice_id)] [] [].

(** The video that [req_publish] creates under [v4_id] at time 400. *)
Definition v4 : Video :=
  {| v_id := v4_id; videoFile := "https://res.cloudinary.com/videos/a.mp4";
     thumbnail := "https://res.cloudinary.com/thumbnails/a.png"; title := "Hello";
     description := "world"; duration := 60; views := 0; isPublished := true;
     v_owner := carol_id; createdAt := 400 |}.

(** The playlist that [req_bob_creates_favorites] creates under [pl2_id]. *)
Definition pl2 : Playlist :=
  {| p_id := pl2_id; p_name := Some "Favorites"; p_description := Some "mine";
     p_videos := []; p_owner := bob_id |}.

(** A playlist of alice that holds a reference with letters in it, and a
    request that spells that reference in upper case. *)
Definition pl3_id : ObjectId := "0000000000000000000000f3".
Definition ab_id : ObjectId := "0000000000000000000000ab".

Definition pl3 : Playlist :=
  {| p_id := pl3_id; p_name := Some "Mixed case"; p_description := Some "y";
     p_videos := [ab_id]; p_owner := alice_id |}.

Definition store_with_pl3 : Store :=
  {| users := users store; videos := videos store; playlists := [pl1; pl3];
     subscriptions := subscriptions store; likes := likes store |}.

Definition req_add_upper_case : Request :=
  request (Some alice_id)
    [("playlistId", pl3_id); ("videoId", "0000000000000000000000AB")] [] [].

End Sample.

Section Controllers.

(** *** What the handlers import *)

(** [isValidObjectId] of mongoose. *)
Variable isValidObjectId : string -> bool.

(** [new mongoose.Types.ObjectId(s)], and the cast mongoose applies to an
    identifier given as a string, for a string that [isValidObjectId]
    accepts. *)
Variable toObjectId : string -> ObjectId.

(** The case-insensitive [$regex] operator: [None] when the pattern does
    not compile, otherwise the test on a subject string. *)
Variable regex : string -> option (string -> bool).

(** [uploadOnCloudinary(path, folder)]. *)
Variable uploadOnCloudinary : string -> string -> UploadResult.

(** Defaults of the Video schema and the [required] flags of the Playlist
    schema (the model files are not among the sources). *)
Variable default_views : Z.
Variable default_isPublished : bool.
Variable name_required : bool.
Variable description_required : bool.

(** *** video.controller.js *)

(** [$match] with the conditions of [mc]; [None] when the pattern of the
    text search is refused. *)
Definition compile_match (mc : MatchConditions) : option (Video -> bool) :=
  let rest v :=
    match mc_owner mc with Some o => String.eqb (v_owner v) o | None => true end
    && match mc_isPublished mc with Some b => Bool.eqb (isPublished v) b | None => true end in
  match mc_or mc with
  | Some q =>
      match regex q with
      | Some test => Some (fun v => (test (title v) || test (description v)) && rest v)
      | None => None
      end
  | None => Some rest
  end.

(** The [$lookup] into users with its [$project], followed by
    [$addFields: { owner: { $first: "$owner" } }]. *)
Definition lookup_owner (st : Store) (v : Video) : VideoItem :=
  {| item_video := v;
     item_owner :=
       hd_error
         (map (fun u => Mongo.project ["fullName"; "username"; "avatar"] (user_doc u))
            (filter (fun u => String.eqb (u_id u) (v_owner v)) (users st))) |}.

(** The filter that [getAllVideos] builds; [None] when [userId] is given
    and is not a well-formed identifier. *)
Definition feed_conditions (req : Request) : option MatchConditions :=
  let mc1 :=
    if JS.truthy (query req "query")
    then mc_set_or (match query req "query" with Some q => q | None => "" end) mc_empty
    else mc_empty in
  let mc2 :=
    match query req "userId" with
    | Some userId =>
        if JS.truthy (Some userId)
        then if negb (isValidObjectId userId) then None
             else Some (mc_set_owner (toObjectId userId) mc1)
        else Some mc1
    | None => Some mc1
    end in
  option_map (mc_set_isPublished true) mc2.

(** The sort object that [getAllVideos] builds: a field and a direction. *)
Definition feed_sort (req : Request) : string * Z :=
  if JS.truthy (query req "sortBy") && JS.truthy (query req "sortType")
  then (match query req "sortBy" with Some f => f | None => "" end,
        if opt_eqb (query req "sortType") (Some "desc") then -1 else 1)
  else ("createdAt", -1).

(** [$sort], [$skip] and [$limit] at the end of both listing pipelines. *)
Definition sort_skip_limit {A} (key : list string -> A -> Mongo.SortKey)
    (field : string) (dir : Z) (skip limit : JS.number) (l : list A) : option (list A) :=
  match Mongo.sort key field dir l with
  | Some sorted =>
      match Mongo.skip skip sorted with
      | Some rest => Mongo.limit limit rest
      | None => None
      end
  | None => None
  end.

Definition getAllVideos (req : Request) (st : Store)
    : Outcome (list VideoItem * Pagination) * Store :=
  let page := parseInt_or 1 (query req "page") in
  let limit := parseInt_or 10 (query req "limit") in
  match feed_conditions req with
  | None => (ApiError 400 "Invalid user ID", st)
  | Some matchConditions =>
      let sortOptions := feed_sort req in
      let skip := JS.mul (JS.sub page (Some 1)) limit in
      match compile_match matchConditions with
      | Some m =>
          match sort_skip_limit item_key (fst sortOptions) (snd sortOptions) skip limit
                  (map (lookup_owner st) (filter m (videos st))) with
          | Some vs =>
              let totalVideos := Mongo.count m (videos st) in
              (ApiResponse 200
                 (vs, {| currentPage := page;
                         totalPages := ceil_pages totalVideos limit;
                         totalVideos := totalVideos;
                         limit := limit |})
                 "Videos fetched successfully!", st)
          | None => (Thrown "MongoServerError", st)
          end
      | None => (Thrown "MongoServerError", st)
      end
  end.

(** [Video.create]: the unique index on [_id] refuses a duplicate. *)
Definition create_video (v : Video) (st : Store) : option Store :=
  if existsb (has_video_id (v_id v)) (videos st) then None
  else Some (set_videos st (videos st ++ [v])%list).

(** [new_id] and [now] are the identifier and the creation time that
    [Video.create] gives the new document. *)
Definition publishAVideo (new_id : ObjectId) (now : Z) (req : Request) (st : Store)
    : Outcome Video * Store :=
  let failed := "Failed to upload video or thumbnail" in
  let rethrow m := ApiError 500 (if String.eqb m "" then failed else m) in
  match body req "title", body req "description" with
  | Some title, Some description =>
      if negb (JS.truthy (Some title)) || negb (JS.truthy (Some description))
      then (ApiError 400 "Title and description are required", st)
      else
        match files req "videoFile" with
        | None => (ApiError 400 "Video file is required", st)
        | Some videoPath =>
            match files req "thumbnail" with
            | None => (ApiError 400 "Thumbnail image is required", st)
            | Some thumbnailPath =>
                match uploadOnCloudinary videoPath "videos" with
                | UploadThrows m => (rethrow m, st)
                | videoUploadResult =>
                    match uploadOnCloudinary thumbnailPath "thumbnails" with
                    | UploadThrows m => (rethrow m, st)
                    | thumbnailUploadResult =>
                        match videoUploadResult, thumbnailUploadResult with
                        | Uploaded vurl vdur, Uploaded turl _ =>
                            match user req with
                            | None => (Thrown "TypeError", st)
                            | Some caller =>
                                let newVideo :=
                                  {| v_id := new_id; videoFile := vurl; thumbnail := turl;
                                     title := title; description := description;
                                     duration := vdur; views := default_views;
                                     isPublished := default_isPublished;
                                     v_owner := caller; createdAt := now |} in
                                match create_video newVideo st with
                                | Some st' =>
                                    (ApiResponse 201 newVideo "Video published successfully!", st')
                                | None => (Thrown "MongoServerError", st)
                                end
                            end
                        | _, _ => (rethrow failed, st)
                        end
                    end
                end
            end
        end
  | _, _ => (ApiError 400 "Title and description are required", st)
  end.

Definition getVideoById (req : Request) (st : Store) : Outcome VideoItem * Store :=
  let videoId := param req "videoId" in
  if negb (isValidObjectId videoId) then (ApiError 400 "Invalid video ID", st)
  else
    let video :=
      map (lookup_owner st) (filter (has_video_id (toObjectId videoId)) (videos st)) in
    match video with
    | [] => (ApiError 404 "Video not found", st)
    | first :: _ =>
        (ApiResponse 200 first "Video fetched successfully!",
         set_videos st
           (update_first (has_video_id (toObjectId videoId))
              (fun v => set_views (views v + 1) v) (videos st)))
    end.

(** [a.toString() !== req.user._id.toString()]; [None] when [req.user] is
    undefined and the property access throws. *)
Definition differs_from_caller (a : ObjectId) (req : Request) : option bool :=
  option_map (fun caller => negb (String.eqb a caller)) (user req).

Definition keep_truthy (o : option string) : option string :=
  if JS.truthy o then o else None.

Definition updateVideo (req : Request) (st : Store) : Outcome (option Video) * Store :=
  let videoId := param req "videoId" in
  let title := body req "title" in
  let description := body req "description" in
  if negb (isValidObjectId videoId) then (ApiError 400 "Invalid video ID", st)
  else if negb (JS.truthy title) && negb (JS.truthy description)
          && match file req with Some _ => false | None => true end
  then (ApiError 400 "At least one field is required to update", st)
  else
    match find (has_video_id (toObjectId videoId)) (videos st) with
    | None => (ApiError 404 "Video not found", st)
    | Some video =>
        match differs_from_caller (v_owner video) req with
        | None => (Thrown "TypeError", st)
        | Some true => (ApiError 403 "You are not authorized to update this video", st)
        | Some false =>
            let finish th :=
              let vs := update_first (has_video_id (toObjectId videoId))
                          (set_fields (keep_truthy title) (keep_truthy description) th)
                          (videos st) in
              (ApiResponse 200 (find (has_video_id (toObjectId videoId)) vs)
                 "Video updated successfully!", set_videos st vs) in
            match file req with
            | Some path =>
                match uploadOnCloudinary path "thumbnails" with
                | Uploaded url _ => finish (Some url)
                | UploadNull => (ApiError 500 "Failed to upload thumbnail", st)
                | UploadThrows _ => (Thrown "Error", st)
                end
            | None => finish None
            end
        end
    end.

Definition deleteVideo (req : Request) (st : Store) : Outcome unit * Store :=
  let videoId := param req "videoId" in
  if negb (isValidObjectId videoId) then (ApiError 400 "Invalid video ID", st)
  else
    match find (has_video_id (toObjectId videoId)) (videos st) with
    | None => (ApiError 404 "Video not found", st)
    | Some video =>
        match differs_from_caller (v_owner video) req with
        | None => (Thrown "TypeError", st)
        | Some true => (ApiError 403 "You are not authorized to delete this video", st)
        | Some false =>
            (ApiResponse 200 tt "Video deleted successfully!",
             set_videos st (remove_first (has_video_id (toObjectId videoId)) (videos st)))
        end
    end.

Definition togglePublishStatus (req : Request) (st : Store) : Outcome Video * Store :=
  let videoId := param req "videoId" in
  if negb (isValidObjectId videoId) then (ApiError 400 "Invalid video ID", st)
  else
    match find (has_video_id (toObjectId videoId)) (videos st) with
    | None => (ApiError 404 "Video not found", st)
    | Some video =>
        match differs_from_caller (v_owner video) req with
        | None => (Thrown "TypeError", st)
        | Some true =>
            (ApiError 403 "You are not authorized to change this video's publish status", st)
        | Some false =>
            let video' := set_isPublished (negb (isPublished video)) video in
            (ApiResponse 200 video'
               ("Video " ++ (if isPublished video' then "published" else "unpublished")
                  ++ " successfully!"),
             set_videos st
               (update_first (has_video_id (v_id video))
                  (set_isPublished (isPublished video')) (videos st)))
        end
    end.

(** *** dashboard controller *)

(** A [$group] with [_id: null]: no document for an empty input, one
    document otherwise. *)
Definition group_null {A B} (summary : list A -> B) (l : list A) : list B :=
  match l with
  | [] => []
  | _ :: _ => [summary l]
  end.

Definition sum_views (l : list Video) : Z :=
  fold_right (fun v acc => views v + acc) 0 l.

(** The [$lookup] of a like into videos followed by [$unwind]: one pair
    for each video that the like references. *)
Definition like_video_details (st : Store) (l : Like) : list (Like * Video) :=
  map (fun v => (l, v))
    (filter (fun v => match l_video l with
                      | Some i => String.eqb (v_id v) i
                      | None => false
                      end) (videos st)).

Definition getChannelStats (req : Request) (st : Store) : Outcome ChannelStats * Store :=
  match user req with
  | None => (Thrown "TypeError", st)
  | Some channelId =>
      let totalSubscribers :=
        Mongo.count (fun s => String.eqb (channel s) channelId) (subscriptions st) in
      let videoStats :=
        group_null (fun l => (Z.of_nat (List.length l), sum_views l))
          (filter (fun v => String.eqb (v_owner v) channelId) (videos st)) in
      let likesStats :=
        group_null (fun l => Z.of_nat (List.length l))
          (filter (fun lv => String.eqb (v_owner (snd lv)) channelId)
             (flat_map (like_video_details st) (likes st))) in
      (ApiResponse 200
         {| totalSubscribers := totalSubscribers;
            cs_totalVideos := or_zero (option_map fst (hd_error videoStats));
            totalViews := or_zero (option_map snd (hd_error videoStats));
            totalLikes := or_zero (hd_error likesStats) |}
         "Channel stats fetched successfully", st)
  end.

(** The [$lookup] into likes, [$addFields] of [likesCount] and the
    [$project] that drops the array. *)
Definition with_likesCount (st : Store) (v : Video) : ChannelVideoItem :=
  {| cv_video := v;
     likesCount :=
       Z.of_nat (List.length
         (filter (fun l => match l_video l with
                           | Some i => String.eqb i (v_id v)
                           | None => false
                           end) (likes st))) |}.

Definition getChannelVideos (req : Request) (st : Store)
    : Outcome (list ChannelVideoItem * Pagination) * Store :=
  match user req with
  | None => (Thrown "TypeError", st)
  | Some channelId =>
      let page := parseInt_or 1 (query req "page") in
      let limit := parseInt_or 10 (query req "limit") in
      let sortBy := match query req "sortBy" with Some f => f | None => "createdAt" end in
      let sortType := match query req "sortType" with Some t => t | None => "desc" end in
      let dir := if String.eqb sortType "desc" then -1 else 1 in
      let skip := JS.mul (JS.sub page (Some 1)) limit in
      let owned v := String.eqb (v_owner v) channelId in
      let aggregate :=
        sort_skip_limit channel_item_key sortBy dir skip limit
          (map (with_likesCount st) (filter owned (videos st))) in
      match aggregate with
      | Some vs =>
          let totalVideos := Mongo.count owned (videos st) in
          (ApiResponse 200
             (vs, {| currentPage := page;
                     totalPages := ceil_pages totalVideos limit;
                     totalVideos := totalVideos;
                     limit := limit |})
             "Channel videos fetched successfully", st)
      | None => (Thrown "MongoServerError", st)
      end
  end.

(** *** playlist.controller.js *)

(** [field?.trim() === ""]: [undefined?.trim()] is [undefined], which is
    not the empty string. *)
Definition blank (field : option string) : bool :=
  match field with
  | Some s => String.eqb (JS.trim s) ""
  | None => false
  end.

(** [Playlist.create]: the schema's [required] validators, then the
    unique index on [_id]. *)
Definition create_playlist (p : Playlist) (st : Store) : option Store :=
  if (name_required && match p_name p with None => true | Some _ => false end)
     || (description_required && match p_description p with None => true | Some _ => false end)
     || existsb (has_playlist_id (p_id p)) (playlists st)
  then None
  else Some (set_playlists st (playlists st ++ [p])%list).

(** [new_id] is the identifier that [Playlist.create] gives the new
    document.  A filter value [undefined] is sent as null and selects the
    documents without the field. *)
Definition createPlaylist (new_id : ObjectId) (req : Request) (st : Store)
    : Outcome Playlist * Store :=
  let name := body req "name" in
  let description := body req "description" in
  if existsb blank [name; description]
  then (ApiError 400 "All fields are required", st)
  else
    match user req with
    | None => (Thrown "TypeError", st)
    | Some caller =>
        match find (fun p => opt_eqb (p_name p) name && String.eqb (p_owner p) caller)
                (playlists st) with
        | Some _ => (ApiError 400 "Playlist with the same name already exists", st)
        | None =>
            let newPlaylist :=
              {| p_id := new_id; p_name := name; p_description := description;
                 p_videos := []; p_owner := caller |} in
            match create_playlist newPlaylist st with
            | Some st' => (ApiResponse 201 newPlaylist "Playlist created successfully", st')
            | None => (Thrown "MongooseError", st)
            end
        end
    end.

(** [populate("videos")]: each reference that resolves, in the order of
    the references. *)
Definition populate (st : Store) (p : Playlist) : PopulatedPlaylist :=
  {| pp_playlist := p;
     pp_videos :=
       flat_map (fun i => match find (has_video_id i) (videos st) with
                          | Some v => [v]
                          | None => []
                          end) (p_videos p) |}.

Definition getUserPlaylists (req : Request) (st : Store)
    : Outcome (list PopulatedPlaylist) * Store :=
  let userId := param req "userId" in
  if negb (isValidObjectId userId) then (ApiError 400 "Invalid user ID", st)
  else
    (ApiResponse 200
       (map (populate st)
          (filter (fun p => String.eqb (p_owner p) (toObjectId userId)) (playlists st)))
       "User playlists fetched successfully", st).

Definition getPlaylistById (req : Request) (st : Store)
    : Outcome PopulatedPlaylist * Store :=
  let playlistId := param req "playlistId" in
  if negb (isValidObjectId playlistId) then (ApiError 400 "Invalid playlist ID", st)
  else
    match find (has_playlist_id (toObjectId playlistId)) (playlists st) with
    | None => (ApiError 404 "Playlist not found", st)
    | Some playlist => (ApiResponse 200 (populate st playlist) "Playlist fetched successfully", st)
    end.

(** [playlist.videos.includes(videoId)]: the array compares the string it
    is given with the string form of each element. *)
Definition includes (vs : list ObjectId) (videoId : string) : bool :=
  existsb (String.eqb videoId) vs.

(** [playlist.save()]: the stored document with the playlist's [_id]
    takes the new list of videos. *)
Definition save_videos (p : Playlist) (st : Store) : Store :=
  set_playlists st
    (update_first (has_playlist_id (p_id p)) (set_p_videos (p_videos p)) (playlists st)).

Definition addVideoToPlaylist (req : Request) (st : Store) : Outcome Playlist * Store :=
  let playlistId := param req "playlistId" in
  let videoId := param req "videoId" in
  if negb (isValidObjectId playlistId) || negb (isValidObjectId videoId)
  then (ApiError 400 "Invalid playlist ID or video ID", st)
  else
    match find (has_playlist_id (toObjectId playlistId)) (playlists st) with
    | None => (ApiError 404 "Playlist not found", st)
    | Some playlist =>
        if includes (p_videos playlist) videoId
        then (ApiError 400 "Video already in playlist", st)
        else
          let playlist' :=
            set_p_videos (p_videos playlist ++ [toObjectId videoId])%list playlist in
          (ApiResponse 200 playlist' "Video added to playlist successfully",
           save_videos playlist' st)
    end.

Definition removeVideoFromPlaylist (req : Request) (st : Store) : Outcome Playlist * Store :=
  let playlistId := param req "playlistId" in
  let videoId := param req "videoId" in
  if negb (isValidObjectId playlistId) || negb (isValidObjectId videoId)
  then (ApiError 400 "Invalid playlist ID or video ID", st)
  else
    match find (has_playlist_id (toObjectId playlistId)) (playlists st) with
    | None => (ApiError 404 "Playlist not found", st)
    | Some playlist =>
        if negb (includes (p_videos playlist) videoId)
        then (ApiError 400 "Video not found in playlist", st)
        else
          let playlist' :=
            set_p_videos
              (filter (fun vid => negb (String.eqb vid videoId)) (p_videos playlist))
              playlist in
          (ApiResponse 200 playlist' "Video removed from playlist successfully",
           save_videos playlist' st)
    end.

Definition deletePlaylist (req : Request) (st : Store) : Outcome unit * Store :=
  let playlistId := param req "playlistId" in
  if negb (isValidObjectId playlistId) then (ApiError 400 "Invalid playlist ID", st)
  else
    match find (has_playlist_id (toObjectId playlistId)) (playlists st) with
    | None => (ApiError 404 "Playlist not found", st)
    | Some playlist =>
        match differs_from_caller (p_owner playlist) req with
        | None => (Thrown "TypeError", st)
        | Some true => (ApiError 403 "You are not authorized to delete this playlist", st)
        | Some false =>
            (ApiResponse 200 tt "Playlist deleted successfully",
             set_playlists st
               (remove_first (has_playlist_id (toObjectId playlistId)) (playlists st)))
        end
    end.

Definition updatePlaylist (req : Request) (st : Store) : Outcome Playlist * Store :=
  let playlistId := param req "playlistId" in
  let name := body req "name" in
  let description := body req "description" in
  if negb (isValidObjectId playlistId) then (ApiError 400 "Invalid playlist ID", st)
  else if negb (JS.truthy name) && negb (JS.truthy description)
  then (ApiError 400 "At least one field (name or description) is required", st)
  else if blank name then (ApiError 400 "Name cannot be empty", st)
  else if blank description then (ApiError 400 "Description cannot be empty", st)
  else
    match find (has_playlist_id (toObjectId playlistId)) (playlists st) with
    | None => (ApiError 404 "Playlist not found", st)
    | Some playlist =>
        match differs_from_caller (p_owner playlist) req with
        | None => (Thrown "TypeError", st)
        | Some true => (ApiError 403 "You are not authorized to update this playlist", st)
        | Some false =>
            let p1 := match keep_truthy name with
                      | Some n => set_p_name n playlist
                      | None => playlist
                      end in
            let p2 := match keep_truthy description with
                      | Some d => set_p_description d p1
                      | None => p1
                      end in
            (ApiResponse 200 p2 "Playlist updated successfully!",
             set_playlists st
               (update_first (has_playlist_id (p_id playlist)) (fun _ => p2) (playlists st)))
        end
    end.


(** *** Sequences of requests *)

(** One request to one of the handlers. *)
Inductive Op :=
| GetAllVideos (req : Request)
| PublishAVideo (new_id : ObjectId) (now : Z) (req : Request)
| GetVideoById (req : Request)
| UpdateVideo (req : Request)
| DeleteVideo (req : Request)
| TogglePublishStatus (req : Request)
| GetChannelStats (req : Request)
| GetChannelVideos (req : Request)
| CreatePlaylist (new_id : ObjectId) (req : Request)
| GetUserPlaylists (req : Request)
| GetPlaylistById (req : Request)
| AddVideoToPlaylist (req : Request)
| RemoveVideoFromPlaylist (req : Request)
| DeletePlaylist (req : Request)
| UpdatePlaylist (req : Request).

(** The collections after the handler has answered. *)
Definition exec (op : Op) (st : Store) : Store :=
  match op with
  | GetAllVideos req => snd (getAllVideos req st)
  | PublishAVideo new_id now req => snd (publishAVideo new_id now req st)
  | GetVideoById req => snd (getVideoById req st)
  | UpdateVideo req => snd (updateVideo req st)
  | DeleteVideo req => snd (deleteVideo req st)
  | TogglePublishStatus req => snd (togglePublishStatus req st)
  | GetChannelStats req => snd (getChannelStats req st)
  | GetChannelVideos req => snd (getChannelVideos req st)
  | CreatePlaylist new_id req => snd (createPlaylist new_id req st)
  | GetUserPlaylists req => snd (getUserPlaylists req st)
  | GetPlaylistById req => snd (getPlaylistById req st)
  | AddVideoToPlaylist req => snd (addVideoToPlaylist req st)
  | RemoveVideoFromPlaylist req => snd (removeVideoFromPlaylist req st)
  | DeletePlaylist req => snd (deletePlaylist req st)
  | UpdatePlaylist req => snd (updatePlaylist req st)
  end.

Definition run (ops : list Op) (st : Store) : Store :=
  fold_left (fun s op => exec op s) ops st.

(** The identifier under which a request can insert a video. *)
Definition created_id (op : Op) : option ObjectId :=
  match op with
  | PublishAVideo new_id _ _ => Some new_id
  | _ => None
  end.

(** The stored view counter of the video with identifier [i]. *)
Definition stored_views (i : ObjectId) (st : Store) : option Z :=
  option_map views (find (has_video_id i) (videos st)).

(** The identifiers of a collection are unique. *)
Definition unique_video_ids (st : Store) : Prop := NoDup (map v_id (videos st)).

(** *** Outcomes of requests, and what stays fixed in a document *)

Definition is_response {A} (o : Outcome A) : bool :=
  match o with
  | ApiResponse _ _ _ => true
  | _ => false
  end.

(** The handler answered with an [ApiResponse]. *)
Definition answers (op : Op) (st : Store) : bool :=
  match op with
  | GetAllVideos req => is_response (fst (getAllVideos req st))
  | PublishAVideo new_id now req => is_response (fst (publishAVideo new_id now req st))
  | GetVideoById req => is_response (fst (getVideoById req st))
  | UpdateVideo req => is_response (fst (updateVideo req st))
  | DeleteVideo req => is_response (fst (deleteVideo req st))
  | TogglePublishStatus req => is_response (fst (togglePublishStatus req st))
  | GetChannelStats req => is_response (fst (getChannelStats req st))
  | GetChannelVideos req => is_response (fst (getChannelVideos req st))
  | CreatePlaylist new_id req => is_response (fst (createPlaylist new_id req st))
  | GetUserPlaylists req => is_response (fst (getUserPlaylists req st))
  | GetPlaylistById req => is_response (fst (getPlaylistById req st))
  | AddVideoToPlaylist req => is_response (fst (addVideoToPlaylist req st))
  | RemoveVideoFromPlaylist req => is_response (fst (removeVideoFromPlaylist req st))
  | DeletePlaylist req => is_response (fst (deletePlaylist req st))
  | UpdatePlaylist req => is_response (fst (updatePlaylist req st))
  end.

(** The handlers that issue no write. *)
Definition read_only (op : Op) : bool :=
  match op with
  | GetAllVideos _ | GetChannelStats _ | GetChannelVideos _
  | GetUserPlaylists _ | GetPlaylistById _ => true
  | _ => false
  end.

Definition op_request (op : Op) : Request :=
  match op with
  | GetAllVideos req | PublishAVideo _ _ req | GetVideoById req | UpdateVideo req
  | DeleteVideo req | TogglePublishStatus req | GetChannelStats req
  | GetChannelVideos req | CreatePlaylist _ req | GetUserPlaylists req
  | GetPlaylistById req | AddVideoToPlaylist req | RemoveVideoFromPlaylist req
  | DeletePlaylist req | UpdatePlaylist req => req
  end.

(** The identifier under which a request can insert a playlist. *)
Definition created_playlist_id (op : Op) : option ObjectId :=
  match op with
  | CreatePlaylist new_id _ => Some new_id
  | _ => None
  end.

Definition unique_playlist_ids (st : Store) : Prop := NoDup (map p_id (playlists st)).

(** The fields of a video that no handler writes after creation. *)
Definition same_identity (v v' : Video) : Prop :=
  v_id v' = v_id v /\ v_owner v' = v_owner v /\ createdAt v' = createdAt v /\
  videoFile v' = videoFile v /\ duration v' = duration v.

(** The fields of a playlist that no handler writes after creation. *)
Definition same_playlist_identity (p p' : Playlist) : Prop :=
  p_id p' = p_id p /\ p_owner p' = p_owner p.

(** The sum of the [likesCount] of a channel listing. *)
Definition sum_likesCount (l : list ChannelVideoItem) : Z :=
  fold_right (fun it acc => likesCount it + acc) 0 l.

(** The number of likes that reference the video [i]. *)
Definition likes_of (st : Store) (i : ObjectId) : Z :=
  Z.of_nat (List.length
    (filter (fun l => match l_video l with
                      | Some j => String.eqb j i
                      | None => false
                      end) (likes st))).

(** How one request can change the videos, with what an update keeps. *)
Inductive videos_edit (l : list Video) : option ObjectId -> list Video -> Prop :=
| ve_same o : videos_edit l o l
| ve_insert nv :
    existsb (has_video_id (v_id nv)) l = false ->
    videos_edit l (Some (v_id nv)) (l ++ [nv])
| ve_update o i f :
    (forall v, same_identity v (f v)) ->
    videos_edit l o (update_first (has_video_id i) f l)
| ve_remove o i : videos_edit l o (remove_first (has_video_id i) l).

(** How one request can change the playlists. *)
Inductive playlists_edit (l : list Playlist) : option ObjectId -> list Playlist -> Prop :=
| pe_same o : playlists_edit l o l
| pe_insert np :
    existsb (has_playlist_id (p_id np)) l = false ->
    playlists_edit l (Some (p_id np)) (l ++ [np])
| pe_update o i f :
    (forall p, find (has_playlist_id i) l = Some p -> same_playlist_identity p (f p)) ->
    playlists_edit l o (update_first (has_playlist_id i) f l)
| pe_remove o i : playlists_edit l o (remove_first (has_playlist_id i) l).

(** The test of a document's key against an identifier. *)
Definition has_key {A} (key : A -> ObjectId) (i : ObjectId) (x : A) : bool :=
  String.eqb (key x) i.

(** The thumbnail that [updateVideo] obtains for the request: none when no
    file is sent, the uploaded address when the upload returns an asset;
    [None] when the upload returns [null] or throws. *)
Definition uploaded_thumbnail (req : Request) : option (option string) :=
  match file req with
  | None => Some None
  | Some path =>
      match uploadOnCloudinary path "thumbnails" with
      | Uploaded url _ => Some (Some url)
      | _ => None
      end
  end.

(** [if (x) field = x]: the new value when it is truthy, the old one
    otherwise. *)
Definition updated (old : string) (new : option string) : string :=
  match new with
  | Some s => if String.eqb s "" then old else s
  | None => old
  end.

(** The sum of [f] over a list. *)
Definition sumZ {A} (f : A -> Z) (l : list A) : Z :=
  fold_right (fun x acc => f x + acc) 0 l.

(** The order of a list by an integer key: descending when [desc],
    ascending otherwise. *)
Definition ordered_by {A} (g : A -> Z) (desc : bool) (x y : A) : Prop :=
  if desc then g y <= g x else g x <= g y.

(** The same order as a test. *)
Definition leb_by {A} (g : A -> Z) (desc : bool) (x y : A) : bool :=
  if desc then g y <=? g x else g x <=? g y.

(** ** Facts about the engine model *)

Lemma insert_by_perm {A} (le : A -> A -> bool) (x : A) (l : list A) :
  Permutation (Mongo.insert_by le x l) (x :: l).
Proof.
  induction l as [|y l IH]; simpl.
  - apply Permutation_refl.
  - destruct (le x y).
    + apply Permutation_refl.
    + eapply perm_trans; [apply perm_skip, IH | apply perm_swap].
Qed.

Lemma sort_by_perm {A} (le : A -> A -> bool) (l : list A) :
  Permutation (Mongo.sort_by le l) l.
Proof.
  induction l as [|x l IH]; simpl.
  - apply perm_nil.
  - eapply perm_trans; [apply insert_by_perm | apply perm_skip, IH].
Qed.

Lemma sort_perm {A} (key : list string -> A -> Mongo.SortKey) f d (l l' : list A) :
  Mongo.sort key f d l = Some l' -> Permutation l' l.
Proof.
  unfold Mongo.sort. destruct (Mongo.validFieldPath f); [|discriminate].
  intros E. injection E as <-. apply sort_by_perm.
Qed.

Lemma skip_incl {A} n (l l' : list A) :
  Mongo.skip n l = Some l' -> incl l' l.
Proof.
  unfold Mongo.skip. destruct n as [s|]; [|discriminate].
  destruct (0 <=? s); [|discriminate].
  intros E. injection E as <-. intros x Hx.
  rewrite <- (firstn_skipn (Z.to_nat s) l). apply in_or_app. now right.
Qed.

Lemma limit_incl {A} n (l l' : list A) :
  Mongo.limit n l = Some l' -> incl l' l.
Proof.
  unfold Mongo.limit. destruct n as [k|]; [|discriminate].
  destruct (1 <=? k); [|discriminate].
  intros E. injection E as <-. intros x Hx.
  rewrite <- (firstn_skipn (Z.to_nat k) l). apply in_or_app. now left.
Qed.

(** Whatever the last three stages return was in their input. *)
Lemma sort_skip_limit_incl {A} (key : list string -> A -> Mongo.SortKey)
    f d s k (l l' : list A) :
  sort_skip_limit key f d s k l = Some l' -> incl l' l.
Proof.
  unfold sort_skip_limit.
  destruct (Mongo.sort key f d l) as [sorted|] eqn:Es; [|discriminate].
  destruct (Mongo.skip s sorted) as [rest|] eqn:Ek; [|discriminate].
  intros El x Hx.
  apply (Permutation_in x (sort_perm _ _ _ _ _ Es)).
  apply (skip_incl _ _ _ Ek). now apply (limit_incl _ _ _ El).
Qed.





(** ** Lookups and updates by identifier *)

Lemma find_has_video_id i l v :
  find (has_video_id i) l = Some v -> In v l /\ v_id v = i.
Proof.
  intros H. apply find_some in H. destruct H as [Hin He].
  split; [assumption|]. now apply String.eqb_eq.
Qed.

Lemma find_has_playlist_id i l p :
  find (has_playlist_id i) l = Some p -> In p l /\ p_id p = i.
Proof.
  intros H. apply find_some in H. destruct H as [Hin He].
  split; [assumption|]. now apply String.eqb_eq.
Qed.

Lemma find_update_first {A} (p : A -> bool) (f : A -> A) (l : list A) x :
  (forall y, p (f y) = p y) ->
  find p l = Some x -> find p (update_first p f l) = Some (f x).
Proof.
  intros Hp. induction l as [|y l IH]; simpl; [discriminate|].
  destruct (p y) eqn:E.
  - intros [= ->]. simpl. now rewrite Hp, E.
  - intros H. simpl. rewrite E. now apply IH.
Qed.

Lemma find_update_first_other {A} (p q : A -> bool) (f : A -> A) (l : list A) :
  (forall y, q (f y) = q y) ->
  (forall y, p y = true -> q y = false) ->
  find q (update_first p f l) = find q l.
Proof.
  intros Hq Hpq. induction l as [|y l IH]; simpl; [reflexivity|].
  destruct (p y) eqn:E; simpl.
  - rewrite Hq, (Hpq y E). reflexivity.
  - rewrite IH. reflexivity.
Qed.

Lemma update_first_twice {A} (p : A -> bool) (f g : A -> A) (l : list A) :
  (forall y, p (f y) = p y) ->
  update_first p g (update_first p f l) = update_first p (fun y => g (f y)) l.
Proof.
  intros Hp. induction l as [|y l IH]; simpl; [reflexivity|].
  destruct (p y) eqn:E; simpl.
  - now rewrite Hp, E.
  - now rewrite E, IH.
Qed.

Lemma update_first_fix {A} (p : A -> bool) (f : A -> A) (l : list A) x :
  find p l = Some x -> f x = x -> update_first p f l = l.
Proof.
  induction l as [|y l IH]; simpl; [reflexivity|].
  destruct (p y).
  - intros [= ->] ->. reflexivity.
  - intros H Hf. now rewrite IH.
Qed.

Lemma update_first_ext {A} (p : A -> bool) (f g : A -> A) (l : list A) :
  (forall y, In y l -> p y = true -> f y = g y) ->
  update_first p f l = update_first p g l.
Proof.
  induction l as [|y l IH]; simpl; [reflexivity|]. intros H.
  destruct (p y) eqn:E.
  - rewrite (H y); auto.
  - rewrite IH; auto.
Qed.

(** ** The public feed *)

Lemma compile_match_published mc m :
  compile_match (mc_set_isPublished true mc) = Some m ->
  forall v, m v = true -> isPublished v = true.
Proof.
  unfold compile_match. simpl. intros H v Hv.
  destruct (mc_or mc) as [q|].
  - destruct (regex q) as [test|]; [|discriminate].
    injection H as <-.
    apply andb_true_iff in Hv. destruct Hv as [_ Hv].
    apply andb_true_iff in Hv. destruct Hv as [_ Hv].
    now apply Bool.eqb_prop in Hv.
  - injection H as <-.
    apply andb_true_iff in Hv. destruct Hv as [_ Hv].
    now apply Bool.eqb_prop in Hv.
Qed.

Lemma feed_conditions_published req mc :
  feed_conditions req = Some mc ->
  exists mc', mc = mc_set_isPublished true mc'.
Proof.
  unfold feed_conditions.
  match goal with |- option_map _ ?o = _ -> _ => destruct o as [mc'|] end;
    simpl; [|discriminate].
  intros [= <-]. now exists mc'.
Qed.

(** What [getAllVideos] answers, in terms of the filter it compiled. *)
Lemma getAllVideos_inv req st code vs pg msg st' :
  getAllVideos req st = (ApiResponse code (vs, pg) msg, st') ->
  exists mc m,
    feed_conditions req = Some mc /\ compile_match mc = Some m /\
    incl vs (map (lookup_owner st) (filter m (videos st))) /\ st' = st.
Proof.
  unfold getAllVideos.
  destruct (feed_conditions req) as [mc|]; [|discriminate].
  destruct (compile_match mc) as [m|] eqn:Em; [|discriminate].
  match goal with |- context [sort_skip_limit ?k ?f ?d ?s ?l ?all] =>
    destruct (sort_skip_limit k f d s l all) as [vs'|] eqn:Es end; [|discriminate].
  intros [= _ <- _ _ <-]. exists mc, m.
  split; [reflexivity|]. split; [exact Em|]. split; [|reflexivity].
  exact (sort_skip_limit_incl _ _ _ _ _ _ _ Es).
Qed.

(** C2: whatever query, userId, sortBy, sortType, page and limit a request
    to [getAllVideos] carries, every video of the list it returns is a
    stored video whose publish flag is true. *)
Theorem getAllVideos_only_published req st code vs pg msg st' :
  getAllVideos req st = (ApiResponse code (vs, pg) msg, st') ->
  forall it, In it vs ->
    isPublished (item_video it) = true /\ In (item_video it) (videos st).
Proof.
  intros H it Hit.
  destruct (getAllVideos_inv _ _ _ _ _ _ _ H) as (mc & m & Hc & Hm & Hincl & _).
  destruct (feed_conditions_published _ _ Hc) as [mc' ->].
  apply Hincl, in_map_iff in Hit. destruct Hit as (v & <- & Hv).
  apply filter_In in Hv. destruct Hv as [Hin Hmv]. simpl.
  split; [|assumption].
  exact (compile_match_published _ _ Hm v Hmv).
Qed.

(** ** The owner sub-object *)

Lemma project_user_doc u :
  Mongo.project ["fullName"; "username"; "avatar"] (user_doc u) = owner_view u.
Proof. destruct u as [i un em fn av [c|] wh pw [r|]]; reflexivity. Qed.

Lemma hd_map_filter {A B} (f : A -> B) (p : A -> bool) (l : list A) :
  hd_error (map f (filter p l)) = option_map f (find p l).
Proof.
  induction l as [|x l IH]; simpl; [reflexivity|].
  destruct (p x); simpl; [reflexivity|exact IH].
Qed.

Lemma lookup_owner_shape st v : owner_shape st (lookup_owner st v).
Proof.
  unfold owner_shape, lookup_owner; cbn [item_owner item_video].
  rewrite hd_map_filter.
  destruct (find _ (users st)) as [u|] eqn:E; cbn [option_map].
  - apply find_some in E. destruct E as [Hin He].
    apply String.eqb_eq in He. rewrite project_user_doc.
    split; [reflexivity|]. exists u. auto.
  - intros u Hin Hu. apply (find_none _ _ E) in Hin.
    apply String.eqb_neq in Hin. contradiction.
Qed.

Lemma getVideoById_inv req st code it msg st' :
  getVideoById req st = (ApiResponse code it msg, st') ->
  let i := toObjectId (param req "videoId") in
  exists v,
    isValidObjectId (param req "videoId") = true /\
    find (has_video_id i) (videos st) = Some v /\
    it = lookup_owner st v /\ code = 200 /\
    st' = set_videos st
            (update_first (has_video_id i) (fun v => set_views (views v + 1) v) (videos st)).
Proof.
  unfold getVideoById.
  destruct (isValidObjectId (param req "videoId")); simpl; [|discriminate].
  induction (videos st) as [|w ws IH] at 1 3; simpl.
  - discriminate.
  - destruct (has_video_id _ w) eqn:E; simpl.
    + intros [= <- <- _ <-]. exists w. auto.
    + exact IH.
Qed.

(** C4 (as amended): each item that [getAllVideos] or [getVideoById]
    returns carries, when the owner reference of the video resolves to a
    user, an owner sub-object with exactly the fields _id, username,
    fullName and avatar of that user, and no owner sub-object otherwise. *)
Theorem owner_projection_fields :
  (forall req st code vs pg msg st',
      getAllVideos req st = (ApiResponse code (vs, pg) msg, st') ->
      forall it, In it vs -> owner_shape st it) /\
  (forall req st code it msg st',
      getVideoById req st = (ApiResponse code it msg, st') -> owner_shape st it).
Proof.
  split.
  - intros req st code vs pg msg st' H it Hit.
    destruct (getAllVideos_inv _ _ _ _ _ _ _ H) as (mc & m & _ & _ & Hincl & _).
    apply Hincl, in_map_iff in Hit. destruct Hit as (v & <- & _).
    apply lookup_owner_shape.
  - intros req st code it msg st' H.
    destruct (getVideoById_inv _ _ _ _ _ _ H) as (v & _ & _ & -> & _).
    apply lookup_owner_shape.
Qed.

(** ** Pagination *)





(** ** The view counter *)

Lemma has_video_id_set_views i n v : has_video_id i (set_views n v) = has_video_id i v.
Proof. reflexivity. Qed.

Lemma has_video_id_neq i j v : i <> j -> has_video_id i v = true -> has_video_id j v = false.
Proof.
  unfold has_video_id. intros Hij Hi. apply String.eqb_eq in Hi.
  apply String.eqb_neq. congruence.
Qed.

Ltac case_step :=
  match goal with
  | |- context [match ?x with _ => _ end] => destruct x eqn:?
  end.

Lemma create_video_some v st st' :
  create_video v st = Some st' ->
  existsb (has_video_id (v_id v)) (videos st) = false /\
  st' = set_videos st (videos st ++ [v])%list.
Proof.
  unfold create_video.
  destruct (existsb _ _); [discriminate|]. intros [= <-]. auto.
Qed.

Lemma create_playlist_some p st st' :
  create_playlist p st = Some st' ->
  st' = set_playlists st (playlists st ++ [p])%list.
Proof.
  unfold create_playlist.
  match goal with |- (if ?c then _ else _) = _ -> _ => destruct c end;
    [discriminate|]. now intros [= <-].
Qed.

(** Every handler changes the videos in one of the four ways. *)
Lemma exec_videos_change op st :
  videos_change (videos st) (created_id op) (videos (exec op st)).
Proof.
  destruct op; cbn [exec created_id].
  - unfold getAllVideos. repeat case_step; apply vc_same.
  - unfold publishAVideo.
    repeat case_step; cbn [snd videos set_videos]; try apply vc_same.
    match goal with H : create_video ?nv _ = Some _ |- _ =>
      apply create_video_some in H; destruct H as [Hnew ->];
      cbn [videos set_videos]; exact (vc_insert (videos st) nv Hnew) end.
  - unfold getVideoById. repeat case_step; cbn [snd videos set_videos]; try apply vc_same.
    apply vc_update; intros; cbn [set_views v_id views]; [reflexivity|lia].
  - unfold updateVideo. repeat case_step; cbn [snd videos set_videos]; try apply vc_same.
    all: apply vc_update; intros; cbn [set_fields v_id views]; [reflexivity|lia].
  - unfold deleteVideo. repeat case_step; cbn [snd videos set_videos]; try apply vc_same.
    apply vc_remove.
  - unfold togglePublishStatus.
    repeat case_step; cbn [snd videos set_videos]; try apply vc_same.
    all: apply vc_update; intros; cbn [set_isPublished v_id views]; [reflexivity|lia].
  - unfold getChannelStats. repeat case_step; apply vc_same.
  - unfold getChannelVideos. repeat case_step; apply vc_same.
  - unfold createPlaylist.
    repeat case_step; cbn [snd]; try apply vc_same.
    match goal with H : create_playlist _ _ = Some _ |- _ =>
      apply create_playlist_some in H; rewrite H end.
    apply vc_same.
  - unfold getUserPlaylists. repeat case_step; apply vc_same.
  - unfold getPlaylistById. repeat case_step; apply vc_same.
  - unfold addVideoToPlaylist, save_videos. repeat case_step; apply vc_same.
  - unfold removeVideoFromPlaylist, save_videos. repeat case_step; apply vc_same.
  - unfold deletePlaylist. repeat case_step; apply vc_same.
  - unfold updatePlaylist. repeat case_step; apply vc_same.
Qed.

Lemma ids_update_first i f (l : list Video) :
  (forall v, v_id (f v) = v_id v) ->
  map v_id (update_first (has_video_id i) f l) = map v_id l.
Proof.
  intros Hf. induction l as [|y l IH]; simpl; [reflexivity|].
  destruct (has_video_id i y); simpl; [now rewrite Hf|now rewrite IH].
Qed.

Lemma remove_first_incl {A} (p : A -> bool) (l : list A) : incl (remove_first p l) l.
Proof.
  induction l as [|y l IH]; simpl; [apply incl_refl|].
  destruct (p y); [apply incl_tl, incl_refl|].
  intros x [<-|Hx]; [now left|right; now apply IH].
Qed.

Lemma ids_remove_first_nodup i (l : list Video) :
  NoDup (map v_id l) -> NoDup (map v_id (remove_first (has_video_id i) l)).
Proof.
  induction l as [|y l IH]; simpl; [auto|]. intros H.
  apply NoDup_cons_iff in H. destruct H as [Hy Hl].
  destruct (has_video_id i y); [assumption|]. simpl.
  apply NoDup_cons; [|auto].
  intros Hin. apply Hy. apply in_map_iff in Hin. destruct Hin as (x & Hx & Hin).
  apply in_map_iff. exists x. split; [assumption|].
  exact (remove_first_incl (has_video_id i) l x Hin).
Qed.

Lemma existsb_has_video_id i (l : list Video) :
  existsb (has_video_id i) l = false -> ~ In i (map v_id l).
Proof.
  intros H Hin. apply in_map_iff in Hin. destruct Hin as (x & Hx & Hin).
  assert (existsb (has_video_id i) l = true).
  { apply existsb_exists. exists x. split; [assumption|]. now apply String.eqb_eq. }
  congruence.
Qed.

(** Unique identifiers stay unique. *)
Lemma videos_change_unique l o l' :
  videos_change l o l' -> NoDup (map v_id l) -> NoDup (map v_id l').
Proof.
  intros [o'|nv Hnv|o' i f Hid _|o' i] Hl.
  - assumption.
  - rewrite map_app. simpl. apply NoDup_rev in Hl.
    rewrite <- (rev_involutive (map v_id l ++ [v_id nv])).
    apply NoDup_rev. rewrite rev_app_distr. simpl.
    apply NoDup_cons; [|assumption].
    rewrite <- in_rev. now apply existsb_has_video_id.
  - now rewrite ids_update_first.
  - now apply ids_remove_first_nodup.
Qed.

Lemma find_app_some {A} (p : A -> bool) (l r : list A) x :
  find p l = Some x -> find p (l ++ r) = Some x.
Proof.
  induction l as [|y l IH]; simpl; [discriminate|].
  destruct (p y); auto.
Qed.

Lemma find_app_none {A} (p : A -> bool) (l r : list A) :
  find p l = None -> find p (l ++ r) = find p r.
Proof.
  induction l as [|y l IH]; simpl; [reflexivity|].
  destruct (p y); [discriminate|auto].
Qed.

Lemma find_update_mono j i f (l : list Video) x :
  (forall v, v_id (f v) = v_id v) ->
  (forall v, views v <= views (f v)) ->
  find (has_video_id j) l = Some x ->
  exists x', find (has_video_id j) (update_first (has_video_id i) f l) = Some x' /\
             views x <= views x'.
Proof.
  intros Hid Hv. induction l as [|y l IH]; simpl; [discriminate|].
  destruct (has_video_id i y) eqn:Ei; simpl.
  - unfold has_video_id at 1 3. rewrite Hid. fold (has_video_id j y).
    destruct (has_video_id j y).
    + intros [= <-]. exists (f y). auto.
    + intros H. exists x. split; [assumption|lia].
  - destruct (has_video_id j y).
    + intros [= <-]. exists y. split; [reflexivity|lia].
    + exact IH.
Qed.

Lemma find_update_none j i f (l : list Video) :
  (forall v, v_id (f v) = v_id v) ->
  find (has_video_id j) l = None ->
  find (has_video_id j) (update_first (has_video_id i) f l) = None.
Proof.
  intros Hid. induction l as [|y l IH]; simpl; [reflexivity|].
  destruct (has_video_id i y) eqn:Ei; simpl.
  - unfold has_video_id at 1 3. rewrite Hid. fold (has_video_id j y).
    destruct (has_video_id j y); [discriminate|auto].
  - destruct (has_video_id j y); [discriminate|auto].
Qed.

Lemma find_remove_none {A} (p q : A -> bool) (l : list A) :
  find q l = None -> find q (remove_first p l) = None.
Proof.
  induction l as [|y l IH]; simpl; [reflexivity|].
  destruct (q y) eqn:Eq; [discriminate|]. intros H.
  destruct (p y); simpl; [assumption|]. rewrite Eq. auto.
Qed.

Lemma find_remove_unique j i (l : list Video) x x' :
  NoDup (map v_id l) ->
  find (has_video_id j) l = Some x ->
  find (has_video_id j) (remove_first (has_video_id i) l) = Some x' ->
  x' = x.
Proof.
  induction l as [|y l IH]; simpl; [discriminate|]. intros Hnd.
  apply NoDup_cons_iff in Hnd. destruct Hnd as [Hy Hl].
  destruct (has_video_id i y) eqn:Ei.
  - destruct (has_video_id j y) eqn:Ej.
    + intros [= <-] Hx'. exfalso. apply Hy.
      apply find_has_video_id in Hx'. destruct Hx' as [Hin Hid].
      apply String.eqb_eq in Ej. apply in_map_iff. exists x'.
      split; [congruence|assumption].
    + congruence.
  - simpl. destruct (has_video_id j y); [congruence|auto].
Qed.

(** One request never lowers a stored view counter ... *)
Lemma videos_change_mono l o l' j x x' :
  videos_change l o l' -> NoDup (map v_id l) ->
  find (has_video_id j) l = Some x -> find (has_video_id j) l' = Some x' ->
  views x <= views x'.
Proof.
  intros [o'|nv Hnv|o' i f Hid Hv|o' i] Hnd Hx Hx'.
  - assert (x' = x) by congruence. subst. lia.
  - rewrite (find_app_some _ _ _ _ Hx) in Hx'. assert (x' = x) by congruence. subst. lia.
  - destruct (find_update_mono j i f l x Hid Hv Hx) as (y & Hy & Hle).
    assert (x' = y) by congruence. subst. assumption.
  - rewrite (find_remove_unique j i l x x' Hnd Hx Hx'). lia.
Qed.

(** ... and a video that is gone only comes back through an insertion
    under its identifier. *)
Lemma videos_change_none l o l' j :
  videos_change l o l' -> o <> Some j ->
  find (has_video_id j) l = None -> find (has_video_id j) l' = None.
Proof.
  intros [o'|nv Hnv|o' i f Hid Hv|o' i] Ho Hx.
  - assumption.
  - rewrite (find_app_none _ _ _ Hx). simpl.
    destruct (has_video_id j nv) eqn:E; [|reflexivity].
    apply String.eqb_eq in E. congruence.
  - now apply find_update_none.
  - now apply find_remove_none.
Qed.

Lemma run_unique ops st : unique_video_ids st -> unique_video_ids (run ops st).
Proof.
  revert st. induction ops as [|op ops IH]; intros st H; simpl; [assumption|].
  apply IH. exact (videos_change_unique _ _ _ (exec_videos_change op st) H).
Qed.

Lemma run_views_monotone ops : forall st i n n',
  unique_video_ids st ->
  Forall (fun op => created_id op <> Some i) ops ->
  stored_views i st = Some n ->
  stored_views i (run ops st) = Some n' ->
  n <= n'.
Proof.
  unfold stored_views.
  induction ops as [|op ops IH]; intros st i n n' Hu Hf Hn Hn'; simpl in Hn'.
  - rewrite Hn in Hn'. injection Hn' as <-. lia.
  - apply Forall_cons_iff in Hf. destruct Hf as [Hop Hf].
    pose proof (exec_videos_change op st) as Hc.
    destruct (find (has_video_id i) (videos st)) as [x|] eqn:Ex; [|discriminate].
    injection Hn as <-.
    destruct (find (has_video_id i) (videos (exec op st))) as [y|] eqn:Ey.
    + apply Z.le_trans with (views y).
      * exact (videos_change_mono _ _ _ _ _ _ Hc Hu Ex Ey).
      * apply (IH (exec op st) i); auto.
        -- exact (videos_change_unique _ _ _ Hc Hu).
        -- now rewrite Ey.
    + exfalso. clear IH Hc Ex Hu x.
      revert Ey Hn'. generalize (exec op st). clear st.
      induction ops as [|op' ops IH]; intros st Ey Hn'; simpl in Hn'.
      * rewrite Ey in Hn'. discriminate.
      * apply Forall_cons_iff in Hf. destruct Hf as [Hop' Hf].
        apply (IH Hf (exec op' st)); [|assumption].
        exact (videos_change_none _ _ _ _ (exec_videos_change op' st) Hop' Ey).
Qed.

(** C7: a successful [getVideoById] raises the stored view counter of the
    video it returns by exactly 1 and leaves the other counters alone; and
    along any sequence of requests to the handlers, a stored view counter
    never decreases (identifiers are unique and the identifier of the
    video is not issued a second time). *)
Theorem views_incremented_and_monotone :
  (forall req st code it msg st',
      getVideoById req st = (ApiResponse code it msg, st') ->
      stored_views (v_id (item_video it)) st = Some (views (item_video it)) /\
      stored_views (v_id (item_video it)) st' = Some (views (item_video it) + 1) /\
      forall j, j <> v_id (item_video it) -> stored_views j st' = stored_views j st) /\
  (forall ops st i n n',
      unique_video_ids st ->
      Forall (fun op => created_id op <> Some i) ops ->
      stored_views i st = Some n ->
      stored_views i (run ops st) = Some n' ->
      n <= n').
Proof.
  split; [|intros; eapply run_views_monotone; eauto].
  intros req st code it msg st' H.
  destruct (getVideoById_inv _ _ _ _ _ _ H) as (v & _ & Hfind & -> & _ & ->).
  cbn [lookup_owner item_video].
  destruct (find_has_video_id _ _ _ Hfind) as [_ Hid]. rewrite Hid.
  unfold stored_views. cbn [videos set_videos].
  split; [now rewrite Hfind|]. split.
  - rewrite (find_update_first _ (fun v => set_views (views v + 1) v) _ v);
      [reflexivity|reflexivity|assumption].
  - intros j Hj.
    rewrite (find_update_first_other (has_video_id (toObjectId (param req "videoId"))));
      [reflexivity|reflexivity|].
    intros y Hy. apply (has_video_id_neq (toObjectId (param req "videoId"))); auto.
Qed.

(** C10: for a well-formed identifier of a stored video, [getVideoById]
    answers 200 with that video and raises its view counter, whatever the
    publish flag of the video is and whoever sends the request: the answer
    depends on the request through the videoId parameter only. *)
Theorem getVideoById_ignores_publish_flag_and_caller req st v :
  isValidObjectId (param req "videoId") = true ->
  find (has_video_id (toObjectId (param req "videoId"))) (videos st) = Some v ->
  (exists st',
      getVideoById req st
      = (ApiResponse 200 (lookup_owner st v) "Video fetched successfully!", st') /\
      stored_views (v_id v) st' = Some (views v + 1)) /\
  (forall req',
      params req' "videoId" = params req "videoId" ->
      getVideoById req' st = getVideoById req st).
Proof.
  intros Hvalid Hfind. split.
  - unfold getVideoById. rewrite Hvalid. cbn [negb].
    assert (Hhd : exists rest,
               filter (has_video_id (toObjectId (param req "videoId"))) (videos st)
               = v :: rest).
    { revert Hfind. induction (videos st) as [|w ws IH]; simpl; [discriminate|].
      destruct (has_video_id _ w); [intros [= ->]; eauto|exact IH]. }
    destruct Hhd as [rest ->]. cbn [map]. eexists. split; [reflexivity|].
    destruct (find_has_video_id _ _ _ Hfind) as [_ Hid]. rewrite Hid.
    unfold stored_views. cbn [videos set_videos].
    now rewrite (find_update_first _ (fun v => set_views (views v + 1) v) _ v).
  - intros req' Hp. unfold getVideoById, param. now rewrite Hp.
Qed.

(** ** The publish toggle *)

Lemma set_isPublished_twice b v :
  isPublished v = b -> set_isPublished b (set_isPublished (negb b) v) = v.
Proof. intros <-. now destruct v. Qed.

Lemma togglePublishStatus_owner req st v :
  isValidObjectId (param req "videoId") = true ->
  find (has_video_id (toObjectId (param req "videoId"))) (videos st) = Some v ->
  user req = Some (v_owner v) ->
  togglePublishStatus req st
  = (ApiResponse 200 (set_isPublished (negb (isPublished v)) v)
       (if negb (isPublished v) then "Video published successfully!"
        else "Video unpublished successfully!"),
     set_videos st
       (update_first (has_video_id (toObjectId (param req "videoId")))
          (set_isPublished (negb (isPublished v))) (videos st))).
Proof.
  intros Hvalid Hfind Hu. unfold togglePublishStatus, differs_from_caller.
  rewrite Hvalid, Hfind, Hu. cbn [negb option_map].
  rewrite String.eqb_refl. cbn [negb set_isPublished isPublished v_id].
  destruct (find_has_video_id _ _ _ Hfind) as [_ ->].
  now destruct (isPublished v).
Qed.

(** C9: for the owner of a stored video, [togglePublishStatus] stores the
    negation of the publish flag, answers with the updated video and with
    "published" when the flag became true and "unpublished" when it became
    false; a second toggle by the owner brings the collections back to
    what they were. *)
Theorem togglePublishStatus_flips req st v :
  isValidObjectId (param req "videoId") = true ->
  find (has_video_id (toObjectId (param req "videoId"))) (videos st) = Some v ->
  user req = Some (v_owner v) ->
  exists st',
    togglePublishStatus req st
    = (ApiResponse 200 (set_isPublished (negb (isPublished v)) v)
         (if negb (isPublished v) then "Video published successfully!"
          else "Video unpublished successfully!"), st') /\
    option_map isPublished
      (find (has_video_id (toObjectId (param req "videoId"))) (videos st'))
    = Some (negb (isPublished v)) /\
    snd (togglePublishStatus req st') = st.
Proof.
  intros Hvalid Hfind Hu. eexists. split; [now apply togglePublishStatus_owner|].
  set (i := toObjectId (param req "videoId")) in *.
  assert (Hfind' :
    find (has_video_id i)
      (update_first (has_video_id i) (set_isPublished (negb (isPublished v))) (videos st))
    = Some (set_isPublished (negb (isPublished v)) v)).
  { now apply find_update_first. }
  cbn [videos set_videos]. split; [now rewrite Hfind'|].
  rewrite (togglePublishStatus_owner req _ (set_isPublished (negb (isPublished v)) v));
    [|assumption|exact Hfind'|exact Hu].
  cbn [snd set_isPublished isPublished videos set_videos].
  rewrite update_first_twice by reflexivity.
  assert (Hfix :
    update_first (has_video_id i)
      (fun y => set_isPublished (negb (negb (isPublished v)))
                  (set_isPublished (negb (isPublished v)) y)) (videos st)
    = videos st).
  { apply update_first_fix with (x := v); [exact Hfind|].
    rewrite negb_involutive. now apply set_isPublished_twice. }
  rewrite Hfix. now destruct st.
Qed.

(** ** Channel statistics *)

Lemma filter_none {A} (p : A -> bool) (l : list A) :
  (forall x, In x l -> p x = false) -> filter p l = [].
Proof.
  induction l as [|x l IH]; simpl; [reflexivity|]. intros H.
  rewrite (H x) by now left. apply IH. intros y Hy. apply H. now right.
Qed.

Lemma find_none_all {A} (p : A -> bool) (l : list A) :
  (forall x, In x l -> p x = false) -> find p l = None.
Proof.
  induction l as [|x l IH]; simpl; [reflexivity|]. intros H.
  rewrite (H x) by now left. apply IH. intros y Hy. apply H. now right.
Qed.

(** With videos, the two video totals are the count and the view sum. *)
Lemma getChannelStats_totals req st channelId :
  user req = Some channelId ->
  exists stats,
    getChannelStats req st
    = (ApiResponse 200 stats "Channel stats fetched successfully", st) /\
    cs_totalVideos stats
    = Mongo.count (fun v => String.eqb (v_owner v) channelId) (videos st) /\
    totalViews stats
    = sum_views (filter (fun v => String.eqb (v_owner v) channelId) (videos st)).
Proof.
  intros Hu. unfold getChannelStats. rewrite Hu. eexists. split; [reflexivity|].
  cbn [cs_totalVideos totalViews]. unfold Mongo.count.
  destruct (filter _ (videos st)); split; reflexivity.
Qed.

(** C8: for a channel that owns no video and has no subscriber (so that no
    like is on a video of the channel), [getChannelStats] answers 200 with
    all four totals equal to 0. *)
Theorem getChannelStats_empty_channel req st channelId :
  user req = Some channelId ->
  (forall v, In v (videos st) -> v_owner v <> channelId) ->
  (forall s, In s (subscriptions st) -> channel s <> channelId) ->
  getChannelStats req st
  = (ApiResponse 200
       {| totalSubscribers := 0; cs_totalVideos := 0; totalViews := 0; totalLikes := 0 |}
       "Channel stats fetched successfully", st).
Proof using.
  intros Hu Hv Hs. unfold getChannelStats, Mongo.count. rewrite Hu.
  rewrite (filter_none (fun s => String.eqb (channel s) channelId)).
  2:{ intros s Hin. apply String.eqb_neq. auto. }
  rewrite (filter_none (fun v => String.eqb (v_owner v) channelId)).
  2:{ intros v Hin. apply String.eqb_neq. auto. }
  rewrite (filter_none (fun lv : Like * Video => String.eqb (v_owner (snd lv)) channelId)).
  2:{ intros [l v] Hin. apply in_flat_map in Hin. destruct Hin as (l' & _ & Hin).
      unfold like_video_details in Hin. apply in_map_iff in Hin.
      destruct Hin as (w & [= _ <-] & Hw). apply filter_In in Hw.
      apply String.eqb_neq. cbn [snd]. apply Hv. exact (proj1 Hw). }
  reflexivity.
Qed.

(** ** Playlists *)

Lemma includes_In vs videoId : includes vs videoId = true <-> In videoId vs.
Proof.
  unfold includes. rewrite existsb_exists. split.
  - intros (x & Hin & He). apply String.eqb_eq in He. now subst.
  - intros Hin. exists videoId. split; [assumption|apply String.eqb_refl].
Qed.

Lemma includes_not_In vs videoId : includes vs videoId = false <-> ~ In videoId vs.
Proof.
  rewrite <- includes_In. destruct (includes vs videoId); split; congruence.
Qed.

(** The redundant transitions as the handlers test them, on the string
    that the request carries: [addVideoToPlaylist] with a string that is
    in the list of videos answers 400 "Video already in playlist", and
    [removeVideoFromPlaylist] with a string that is not in the list
    answers 400 "Video not found in playlist"; both leave the collections
    as they were. *)
Theorem redundant_membership_change_rejected req st p :
  isValidObjectId (param req "playlistId") = true ->
  isValidObjectId (param req "videoId") = true ->
  find (has_playlist_id (toObjectId (param req "playlistId"))) (playlists st) = Some p ->
  (In (param req "videoId") (p_videos p) ->
   addVideoToPlaylist req st = (ApiError 400 "Video already in playlist", st)) /\
  (~ In (param req "videoId") (p_videos p) ->
   removeVideoFromPlaylist req st = (ApiError 400 "Video not found in playlist", st)).
Proof.
  intros Hp Hv Hfind. split; intros Hin.
  - unfold addVideoToPlaylist. rewrite Hp, Hv, Hfind. cbn [negb orb].
    apply includes_In in Hin. now rewrite Hin.
  - unfold removeVideoFromPlaylist. rewrite Hp, Hv, Hfind. cbn [negb orb].
    apply includes_not_In in Hin. now rewrite Hin.
Qed.

Lemma has_playlist_id_set_p_videos i l p :
  has_playlist_id i (set_p_videos l p) = has_playlist_id i p.
Proof. reflexivity. Qed.

Lemma save_videos_stored st p l :
  find (has_playlist_id (p_id p)) (playlists st) = Some p ->
  find (has_playlist_id (p_id p))
    (playlists (save_videos (set_p_videos l p) st))
  = Some (set_p_videos l p).
Proof.
  intros Hfind. unfold save_videos. cbn [playlists set_playlists p_id set_p_videos p_videos].
  rewrite (find_update_first _ (set_p_videos l) _ p); [|reflexivity|assumption].
  reflexivity.
Qed.

Lemma repeated_at_the_end {A} (x : A) (l : list A) : In x l -> ~ NoDup (l ++ [x]).
Proof.
  intros Hin Hnd. apply NoDup_remove_2 in Hnd. apply Hnd.
  rewrite app_nil_r. exact Hin.
Qed.

(** C3 (where the code departs from it): the test for presence compares
    the string of the request with the string form of the stored
    references.  For a well-formed identifier that the playlist holds
    and that the request spells otherwise than its canonical string,
    [addVideoToPlaylist] answers 200 and stores the reference a second
    time, and [removeVideoFromPlaylist] answers 400 "Video not found in
    playlist". *)
Theorem present_identifier_in_another_spelling req st p :
  isValidObjectId (param req "playlistId") = true ->
  isValidObjectId (param req "videoId") = true ->
  find (has_playlist_id (toObjectId (param req "playlistId"))) (playlists st) = Some p ->
  In (toObjectId (param req "videoId")) (p_videos p) ->
  ~ In (param req "videoId") (p_videos p) ->
  let p' := set_p_videos (p_videos p ++ [toObjectId (param req "videoId")])%list p in
  addVideoToPlaylist req st
  = (ApiResponse 200 p' "Video added to playlist successfully", save_videos p' st) /\
  find (has_playlist_id (p_id p)) (playlists (save_videos p' st)) = Some p' /\
  ~ NoDup (p_videos p') /\
  removeVideoFromPlaylist req st = (ApiError 400 "Video not found in playlist", st).
Proof.
  intros Hp Hv Hfind Hheld Hspelt p'.
  destruct (find_has_playlist_id _ _ _ Hfind) as [_ Hid].
  apply includes_not_In in Hspelt.
  split; [|split; [|split]].
  - unfold addVideoToPlaylist. rewrite Hp, Hv, Hfind. cbn [negb orb].
    now rewrite Hspelt.
  - apply save_videos_stored. now rewrite Hid.
  - subst p'. cbn [p_videos set_p_videos]. now apply repeated_at_the_end.
  - unfold removeVideoFromPlaylist. rewrite Hp, Hv, Hfind. cbn [negb orb].
    now rewrite Hspelt.
Qed.

(** C1 (where the code departs from it): [addVideoToPlaylist] and
    [removeVideoFromPlaylist] never compare the caller with the owner of
    the playlist.  A caller who is not the owner gets 200, and the stored
    list of videos is extended, respectively filtered. *)
Theorem playlist_membership_open_to_non_owner req st p caller :
  isValidObjectId (param req "playlistId") = true ->
  isValidObjectId (param req "videoId") = true ->
  find (has_playlist_id (toObjectId (param req "playlistId"))) (playlists st) = Some p ->
  user req = Some caller ->
  caller <> p_owner p ->
  (~ In (param req "videoId") (p_videos p) ->
   let p' := set_p_videos (p_videos p ++ [toObjectId (param req "videoId")])%list p in
   addVideoToPlaylist req st
   = (ApiResponse 200 p' "Video added to playlist successfully", save_videos p' st) /\
   find (has_playlist_id (p_id p)) (playlists (save_videos p' st)) = Some p' /\
   p' <> p) /\
  (In (param req "videoId") (p_videos p) ->
   let p' := set_p_videos
               (filter (fun vid => negb (String.eqb vid (param req "videoId"))) (p_videos p))
               p in
   removeVideoFromPlaylist req st
   = (ApiResponse 200 p' "Video removed from playlist successfully", save_videos p' st) /\
   find (has_playlist_id (p_id p)) (playlists (save_videos p' st)) = Some p' /\
   p' <> p).
Proof.
  intros Hp Hv Hfind _ _.
  destruct (find_has_playlist_id _ _ _ Hfind) as [_ Hid].
  assert (Hfind' : find (has_playlist_id (p_id p)) (playlists st) = Some p)
    by now rewrite Hid.
  split; intros Hin p'.
  - split; [|split].
    + unfold addVideoToPlaylist. rewrite Hp, Hv, Hfind. cbn [negb orb].
      apply includes_not_In in Hin. now rewrite Hin.
    + now apply save_videos_stored.
    + intros E. apply (f_equal (fun q => List.length (p_videos q))) in E.
      subst p'. cbn [p_videos set_p_videos] in E. rewrite length_app in E.
      simpl in E. lia.
  - split; [|split].
    + unfold removeVideoFromPlaylist. rewrite Hp, Hv, Hfind. cbn [negb orb].
      apply includes_In in Hin. now rewrite Hin.
    + now apply save_videos_stored.
    + intros E. apply (f_equal p_videos) in E.
      subst p'. cbn [p_videos set_p_videos] in E. rewrite <- E in Hin.
      apply filter_In in Hin. destruct Hin as [_ Hne].
      now rewrite String.eqb_refl in Hne.
Qed.




(** C6 (where the code departs from it): an absent name passes the check
    of [createPlaylist].  With a description that is not blank and no
    nameless playlist of the caller in store, the handler goes on to
    [Playlist.create]; the answer is 201 with a stored playlist that has
    no name or, when the schema refuses it, the exception of the model,
    and in neither case the 400 of the check. *)
Theorem createPlaylist_absent_name_passes new_id req st caller d :
  body req "name" = None ->
  body req "description" = Some d ->
  JS.trim d <> "" ->
  user req = Some caller ->
  (forall p, In p (playlists st) -> p_owner p = caller -> p_name p <> None) ->
  let newPlaylist :=
    {| p_id := new_id; p_name := None; p_description := Some d;
       p_videos := []; p_owner := caller |} in
  createPlaylist new_id req st
  = if name_required || existsb (has_playlist_id new_id) (playlists st)
    then (Thrown "MongooseError", st)
    else (ApiResponse 201 newPlaylist "Playlist created successfully",
          set_playlists st (playlists st ++ [newPlaylist])%list).
Proof.
  intros Hn Hd Hblank Hu Hnone newPlaylist.
  unfold createPlaylist. rewrite Hn, Hd, Hu. cbn [existsb blank orb].
  destruct (String.eqb_spec (JS.trim d) ""); [contradiction|].
  replace (find _ (playlists st)) with (@None Playlist).
  2:{ symmetry. apply find_none_all. intros p Hin.
      destruct (p_name p) eqn:En; cbn [opt_eqb andb]; [reflexivity|].
      destruct (String.eqb_spec (p_owner p) caller); [|reflexivity].
      exfalso. now apply (Hnone p). }
  unfold create_playlist. cbn [p_name p_description p_id].
  rewrite andb_true_r, andb_false_r, orb_false_r.
  destruct name_required, (existsb (has_playlist_id new_id) (playlists st)); reflexivity.
Qed.

(** ** Failed requests and reading requests *)

(** X1: a request that does not end in an [ApiResponse], and any request
    to one of the five reading handlers, leaves all collections as they
    were. *)
Theorem failed_or_reading_request_writes_nothing op st :
  answers op st = false \/ read_only op = true ->
  exec op st = st.
Proof.
  intros H. destruct op; cbn [answers read_only exec] in *;
    try (destruct H as [H|H]; [|discriminate H]).
  - clear H. unfold getAllVideos. repeat case_step; reflexivity.
  - revert H. unfold publishAVideo.
    repeat case_step; cbn [fst snd is_response]; intros H;
      try reflexivity; discriminate H.
  - revert H. unfold getVideoById.
    repeat case_step; cbn [fst snd is_response]; intros H;
      try reflexivity; discriminate H.
  - revert H. unfold updateVideo.
    repeat case_step; cbn [fst snd is_response]; intros H;
      try reflexivity; discriminate H.
  - revert H. unfold deleteVideo.
    repeat case_step; cbn [fst snd is_response]; intros H;
      try reflexivity; discriminate H.
  - revert H. unfold togglePublishStatus.
    repeat case_step; cbn [fst snd is_response]; intros H;
      try reflexivity; discriminate H.
  - clear H. unfold getChannelStats. repeat case_step; reflexivity.
  - clear H. unfold getChannelVideos. repeat case_step; reflexivity.
  - revert H. unfold createPlaylist.
    repeat case_step; cbn [fst snd is_response]; intros H;
      try reflexivity; discriminate H.
  - clear H. unfold getUserPlaylists. repeat case_step; reflexivity.
  - clear H. unfold getPlaylistById. repeat case_step; reflexivity.
  - revert H. unfold addVideoToPlaylist.
    repeat case_step; cbn [fst snd is_response]; intros H;
      try reflexivity; discriminate H.
  - revert H. unfold removeVideoFromPlaylist.
    repeat case_step; cbn [fst snd is_response]; intros H;
      try reflexivity; discriminate H.
  - revert H. unfold deletePlaylist.
    repeat case_step; cbn [fst snd is_response]; intros H;
      try reflexivity; discriminate H.
  - revert H. unfold updatePlaylist.
    repeat case_step; cbn [fst snd is_response]; intros H;
      try reflexivity; discriminate H.
Qed.

(** ** Who can change a video *)

Lemma find_remove_first_other {A} (p q : A -> bool) (l : list A) :
  (forall y, p y = true -> q y = false) ->
  find q (remove_first p l) = find q l.
Proof.
  intros Hpq. induction l as [|y l IH]; simpl; [reflexivity|].
  destruct (p y) eqn:E; simpl.
  - now rewrite (Hpq y E).
  - now rewrite IH.
Qed.

Lemma set_views_same v : set_views (views v) v = v.
Proof. now destruct v. Qed.

Lemma differs_from_caller_false a req :
  differs_from_caller a req = Some false -> user req = Some a.
Proof.
  unfold differs_from_caller. destruct (user req) as [c|]; [|discriminate].
  cbn [option_map]. destruct (String.eqb_spec a c); [now subst|discriminate].
Qed.

(** X2: a request whose caller is not the owner of a stored video changes
    nothing of that video but, at most, its view counter, which it can
    only raise: the video is neither deleted nor renamed, described anew,
    given another thumbnail, published or unpublished. *)
Theorem video_changes_need_the_owner op st i x :
  find (has_video_id i) (videos st) = Some x ->
  user (op_request op) <> Some (v_owner x) ->
  exists n,
    find (has_video_id i) (videos (exec op st)) = Some (set_views n x) /\
    views x <= n.
Proof.
  intros Hx Hu.
  assert (Hsame : exists n, find (has_video_id i) (videos st) = Some (set_views n x) /\
                            views x <= n).
  { exists (views x). rewrite set_views_same. split; [assumption|lia]. }
  destruct (find_has_video_id _ _ _ Hx) as [_ Hid].
  assert (Hother : forall t (video : Video),
             find (has_video_id t) (videos st) = Some video ->
             v_owner video <> v_owner x ->
             forall y, has_video_id t y = true -> has_video_id i y = false).
  { intros t video Ht Hne. destruct (String.eqb_spec t i) as [->|Hti].
    - rewrite Hx in Ht. injection Ht as <-. contradiction.
    - intros y. now apply has_video_id_neq. }
  destruct op; cbn [exec op_request] in *.
  - unfold getAllVideos. repeat case_step; exact Hsame.
  - unfold publishAVideo. repeat case_step; cbn [snd]; try exact Hsame.
    match goal with H : create_video ?nv _ = Some _ |- _ =>
      apply create_video_some in H; destruct H as [_ ->] end.
    cbn [videos set_videos]. destruct Hsame as (n & Hn & Hle).
    exists n. split; [now apply find_app_some|assumption].
  - unfold getVideoById. repeat case_step; cbn [snd videos set_videos]; try exact Hsame.
    destruct (String.eqb_spec (toObjectId (param req "videoId")) i) as [E|E].
    + exists (views x + 1). split; [|lia]. rewrite E.
      now rewrite (find_update_first _ (fun v => set_views (views v + 1) v) _ x).
    + rewrite (find_update_first_other (has_video_id (toObjectId (param req "videoId"))));
        [exact Hsame|reflexivity|].
      intros y. now apply has_video_id_neq.
  - unfold updateVideo. repeat case_step; cbn [snd videos set_videos]; try exact Hsame.
    all: match goal with H : differs_from_caller _ _ = Some false |- _ =>
           apply differs_from_caller_false in H end.
    all: match goal with
         | Hf : find (has_video_id ?t) (videos _) = Some ?video |- _ =>
             rewrite (find_update_first_other (has_video_id t));
               [exact Hsame|reflexivity|apply (Hother t video Hf); congruence]
         end.
  - unfold deleteVideo. repeat case_step; cbn [snd videos set_videos]; try exact Hsame.
    match goal with H : differs_from_caller _ _ = Some false |- _ =>
      apply differs_from_caller_false in H end.
    match goal with
    | Hf : find (has_video_id ?t) (videos _) = Some ?video |- _ =>
        rewrite (find_remove_first_other (has_video_id t));
          [exact Hsame|apply (Hother t video Hf); congruence]
    end.
  - unfold togglePublishStatus.
    repeat case_step; cbn [snd videos set_videos]; try exact Hsame.
    all: match goal with H : differs_from_caller _ _ = Some false |- _ =>
           apply differs_from_caller_false in H end.
    all: match goal with
         | Hf : find (has_video_id ?t) (videos _) = Some ?video |- _ =>
             destruct (find_has_video_id _ _ _ Hf) as [_ Hvid]; rewrite Hvid;
             rewrite (find_update_first_other (has_video_id t));
               [exact Hsame|reflexivity|apply (Hother t video Hf); congruence]
         end.
  - unfold getChannelStats. repeat case_step; exact Hsame.
  - unfold getChannelVideos. repeat case_step; exact Hsame.
  - unfold createPlaylist. repeat case_step; cbn [snd]; try exact Hsame.
    match goal with H : create_playlist _ _ = Some _ |- _ =>
      apply create_playlist_some in H; rewrite H end.
    exact Hsame.
  - unfold getUserPlaylists. repeat case_step; exact Hsame.
  - unfold getPlaylistById. repeat case_step; exact Hsame.
  - unfold addVideoToPlaylist, save_videos. repeat case_step; exact Hsame.
  - unfold removeVideoFromPlaylist, save_videos. repeat case_step; exact Hsame.
  - unfold deletePlaylist. repeat case_step; exact Hsame.
  - unfold updatePlaylist. repeat case_step; exact Hsame.
Qed.

(** ** Collections keyed by an identifier *)

Section Keyed.

Variable A : Type.
Variable key : A -> ObjectId.

Lemma keyed_find i (l : list A) x :
  find (has_key key i) l = Some x -> In x l /\ key x = i.
Proof.
  intros H. apply find_some in H. destruct H as [Hin He].
  split; [assumption|]. now apply String.eqb_eq.
Qed.

Lemma keyed_update_keys i f (l : list A) :
  (forall x, find (has_key key i) l = Some x -> key (f x) = key x) ->
  map key (update_first (has_key key i) f l) = map key l.
Proof.
  induction l as [|y l IH]; simpl; [reflexivity|]. intros Hf.
  destruct (has_key key i y); simpl.
  - now rewrite Hf.
  - now rewrite IH.
Qed.

Lemma keyed_remove_nodup i (l : list A) :
  NoDup (map key l) -> NoDup (map key (remove_first (has_key key i) l)).
Proof.
  induction l as [|y l IH]; simpl; [auto|]. intros H.
  apply NoDup_cons_iff in H. destruct H as [Hy Hl].
  destruct (has_key key i y); [assumption|]. simpl.
  apply NoDup_cons; [|auto].
  intros Hin. apply Hy. apply in_map_iff in Hin. destruct Hin as (x & Hx & Hin).
  apply in_map_iff. exists x. split; [assumption|].
  exact (remove_first_incl (has_key key i) l x Hin).
Qed.

Lemma keyed_insert_nodup n (l : list A) :
  existsb (has_key key (key n)) l = false ->
  NoDup (map key l) -> NoDup (map key (l ++ [n])).
Proof.
  intros Hn Hl. rewrite map_app. simpl. apply NoDup_rev in Hl.
  rewrite <- (rev_involutive (map key l ++ [key n])).
  apply NoDup_rev. rewrite rev_app_distr. simpl.
  apply NoDup_cons; [|assumption].
  rewrite <- in_rev. intros Hin. apply in_map_iff in Hin.
  destruct Hin as (x & Hx & Hin).
  assert (existsb (has_key key (key n)) l = true); [|congruence].
  apply existsb_exists. exists x. split; [assumption|]. now apply String.eqb_eq.
Qed.

(** After an update at [i] that keeps the key, a lookup at [j] finds what
    it found before or, when that was the updated document, its image. *)
Lemma keyed_find_update i j f (l : list A) x :
  (forall y, find (has_key key i) l = Some y -> key (f y) = key y) ->
  find (has_key key j) l = Some x ->
  find (has_key key j) (update_first (has_key key i) f l) = Some x \/
  (find (has_key key i) l = Some x /\
   find (has_key key j) (update_first (has_key key i) f l) = Some (f x)).
Proof.
  induction l as [|y l IH]; simpl; [discriminate|]. intros Hf.
  destruct (has_key key i y) eqn:Ei; simpl.
  - assert (Hk : has_key key j (f y) = has_key key j y)
      by (unfold has_key; now rewrite (Hf y eq_refl)).
    rewrite Hk. destruct (has_key key j y).
    + intros [= <-]. right. split; reflexivity.
    + intros H. now left.
  - destruct (has_key key j y).
    + intros [= <-]. now left.
    + intros H. destruct (IH Hf H) as [H'|[H1 H2]]; [now left|right; auto].
Qed.

Lemma keyed_find_update_none i j f (l : list A) :
  (forall y, find (has_key key i) l = Some y -> key (f y) = key y) ->
  find (has_key key j) l = None ->
  find (has_key key j) (update_first (has_key key i) f l) = None.
Proof.
  induction l as [|y l IH]; simpl; [reflexivity|]. intros Hf.
  destruct (has_key key i y) eqn:Ei; simpl.
  - assert (Hk : has_key key j (f y) = has_key key j y)
      by (unfold has_key; now rewrite (Hf y eq_refl)).
    rewrite Hk. destruct (has_key key j y); [discriminate|auto].
  - destruct (has_key key j y); [discriminate|auto].
Qed.

Lemma keyed_find_remove i j (l : list A) x x' :
  NoDup (map key l) ->
  find (has_key key j) l = Some x ->
  find (has_key key j) (remove_first (has_key key i) l) = Some x' ->
  x' = x.
Proof.
  induction l as [|y l IH]; simpl; [discriminate|]. intros Hnd.
  apply NoDup_cons_iff in Hnd. destruct Hnd as [Hy Hl].
  destruct (has_key key i y) eqn:Ei.
  - destruct (has_key key j y) eqn:Ej.
    + intros [= <-] Hx'. exfalso. apply Hy.
      apply keyed_find in Hx'. destruct Hx' as [Hin Hid].
      apply String.eqb_eq in Ej. apply in_map_iff. exists x'.
      split; [congruence|assumption].
    + congruence.
  - simpl. destruct (has_key key j y); [congruence|auto].
Qed.

(** After the removal at [i] under unique keys, a lookup at [i] fails. *)
Lemma keyed_find_removed i (l : list A) :
  NoDup (map key l) ->
  find (has_key key i) (remove_first (has_key key i) l) = None.
Proof.
  induction l as [|y l IH]; simpl; [reflexivity|]. intros Hnd.
  apply NoDup_cons_iff in Hnd. destruct Hnd as [Hy Hl].
  destruct (has_key key i y) eqn:Ei.
  - apply find_none_all. intros x Hin.
    apply String.eqb_eq in Ei. apply String.eqb_neq. intros Hx.
    apply Hy. apply in_map_iff. exists x. split; [congruence|assumption].
  - simpl. rewrite Ei. auto.
Qed.

End Keyed.

(** ** What the handlers keep of a stored document *)

Lemma same_identity_refl v : same_identity v v.
Proof. repeat split. Qed.

Lemma same_identity_trans u v w :
  same_identity u v -> same_identity v w -> same_identity u w.
Proof. unfold same_identity. intuition congruence. Qed.

Lemma exec_videos_edit op st :
  videos_edit (videos st) (created_id op) (videos (exec op st)).
Proof.
  destruct op; cbn [exec created_id].
  - unfold getAllVideos. repeat case_step; apply ve_same.
  - unfold publishAVideo.
    repeat case_step; cbn [snd videos set_videos]; try apply ve_same.
    match goal with H : create_video ?nv _ = Some _ |- _ =>
      apply create_video_some in H; destruct H as [Hnew ->];
      cbn [videos set_videos]; exact (ve_insert (videos st) nv Hnew) end.
  - unfold getVideoById. repeat case_step; cbn [snd videos set_videos]; try apply ve_same.
    apply ve_update; intros; repeat split.
  - unfold updateVideo. repeat case_step; cbn [snd videos set_videos]; try apply ve_same.
    all: apply ve_update; intros; repeat split.
  - unfold deleteVideo. repeat case_step; cbn [snd videos set_videos]; try apply ve_same.
    apply ve_remove.
  - unfold togglePublishStatus.
    repeat case_step; cbn [snd videos set_videos]; try apply ve_same.
    all: apply ve_update; intros; repeat split.
  - unfold getChannelStats. repeat case_step; apply ve_same.
  - unfold getChannelVideos. repeat case_step; apply ve_same.
  - unfold createPlaylist.
    repeat case_step; cbn [snd]; try apply ve_same.
    match goal with H : create_playlist _ _ = Some _ |- _ =>
      apply create_playlist_some in H; rewrite H end.
    apply ve_same.
  - unfold getUserPlaylists. repeat case_step; apply ve_same.
  - unfold getPlaylistById. repeat case_step; apply ve_same.
  - unfold addVideoToPlaylist, save_videos. repeat case_step; apply ve_same.
  - unfold removeVideoFromPlaylist, save_videos. repeat case_step; apply ve_same.
  - unfold deletePlaylist. repeat case_step; apply ve_same.
  - unfold updatePlaylist. repeat case_step; apply ve_same.
Qed.

Lemma create_playlist_fresh p st st' :
  create_playlist p st = Some st' ->
  existsb (has_playlist_id (p_id p)) (playlists st) = false.
Proof.
  unfold create_playlist.
  destruct (existsb (has_playlist_id (p_id p)) (playlists st)); [|reflexivity].
  now rewrite !orb_true_r.
Qed.

Lemma exec_playlists_edit op st :
  playlists_edit (playlists st) (created_playlist_id op) (playlists (exec op st)).
Proof.
  destruct op; cbn [exec created_playlist_id].
  - unfold getAllVideos. repeat case_step; apply pe_same.
  - unfold publishAVideo. repeat case_step; cbn [snd]; try apply pe_same.
    match goal with H : create_video _ _ = Some _ |- _ =>
      apply create_video_some in H; destruct H as [_ ->] end.
    apply pe_same.
  - unfold getVideoById. repeat case_step; apply pe_same.
  - unfold updateVideo. repeat case_step; apply pe_same.
  - unfold deleteVideo. repeat case_step; apply pe_same.
  - unfold togglePublishStatus. repeat case_step; apply pe_same.
  - unfold getChannelStats. repeat case_step; apply pe_same.
  - unfold getChannelVideos. repeat case_step; apply pe_same.
  - unfold createPlaylist.
    repeat case_step; cbn [snd]; try apply pe_same.
    match goal with H : create_playlist ?np _ = Some _ |- _ =>
      pose proof (create_playlist_fresh _ _ _ H) as Hnew;
      apply create_playlist_some in H; rewrite H;
      cbn [playlists set_playlists]; exact (pe_insert (playlists st) np Hnew) end.
  - unfold getUserPlaylists. repeat case_step; apply pe_same.
  - unfold getPlaylistById. repeat case_step; apply pe_same.
  - unfold addVideoToPlaylist, save_videos.
    repeat case_step; cbn [snd playlists set_playlists]; try apply pe_same.
    apply pe_update. intros q _. split; reflexivity.
  - unfold removeVideoFromPlaylist, save_videos.
    repeat case_step; cbn [snd playlists set_playlists]; try apply pe_same.
    apply pe_update. intros q _. split; reflexivity.
  - unfold deletePlaylist.
    repeat case_step; cbn [snd playlists set_playlists]; try apply pe_same.
    apply pe_remove.
  - unfold updatePlaylist.
    repeat case_step; cbn [snd playlists set_playlists]; try apply pe_same.
    all: apply pe_update; intros q Hq.
    all: match goal with
         | Hf : find (has_playlist_id _) (playlists _) = Some ?pl |- _ =>
             destruct (find_has_playlist_id _ _ _ Hf) as [_ Hid];
             assert (q = pl) by (rewrite <- Hid in Hf; congruence); subst q
         end.
    all: split; reflexivity.
Qed.

Lemma videos_edit_unique l o l' :
  videos_edit l o l' -> NoDup (map v_id l) -> NoDup (map v_id l').
Proof.
  intros [o'|nv Hnv|o' i f Hid|o' i] Hl.
  - assumption.
  - now apply (keyed_insert_nodup Video v_id).
  - change (has_video_id i) with (has_key v_id i).
    rewrite (keyed_update_keys Video v_id i f l); [assumption|].
    intros x _. apply Hid.
  - now apply (keyed_remove_nodup Video v_id).
Qed.

Lemma playlists_edit_unique l o l' :
  playlists_edit l o l' -> NoDup (map p_id l) -> NoDup (map p_id l').
Proof.
  intros [o'|np Hnp|o' i f Hid|o' i] Hl.
  - assumption.
  - now apply (keyed_insert_nodup Playlist p_id).
  - change (has_playlist_id i) with (has_key p_id i).
    rewrite (keyed_update_keys Playlist p_id i f l); [assumption|].
    intros x Hx. now apply Hid.
  - now apply (keyed_remove_nodup Playlist p_id).
Qed.

(** X3: along any sequence of requests, the identifiers of the stored
    videos stay pairwise distinct, and so do those of the playlists. *)
Theorem identifiers_stay_unique ops st :
  unique_video_ids st -> unique_playlist_ids st ->
  unique_video_ids (run ops st) /\ unique_playlist_ids (run ops st).
Proof.
  revert st. induction ops as [|op ops IH]; intros st Hv Hp; simpl; [auto|].
  apply IH.
  - exact (videos_edit_unique _ _ _ (exec_videos_edit op st) Hv).
  - exact (playlists_edit_unique _ _ _ (exec_playlists_edit op st) Hp).
Qed.

(** A relation between the successive values of a lookup that every
    request respects is respected by every sequence of requests, as long
    as a failed lookup stays failed. *)
Lemma run_preserved {T} (look : Store -> option T) (R : T -> T -> Prop)
    (ok : Store -> Prop) (fresh : Op -> Prop) :
  (forall x, R x x) ->
  (forall x y z, R x y -> R y z -> R x z) ->
  (forall op st, ok st -> ok (exec op st)) ->
  (forall op st x x', ok st -> look st = Some x -> look (exec op st) = Some x' -> R x x') ->
  (forall op st, fresh op -> look st = None -> look (exec op st) = None) ->
  forall ops st x x',
    ok st -> Forall fresh ops ->
    look st = Some x -> look (run ops st) = Some x' -> R x x'.
Proof.
  intros Hrefl Htrans Hok Hstep Hnone.
  assert (Hgone : forall ops st, Forall fresh ops -> look st = None ->
                                 look (run ops st) = None).
  { induction ops as [|op ops IH]; intros st Hf Hl; simpl; [assumption|].
    apply Forall_cons_iff in Hf. destruct Hf as [Hop Hf].
    apply IH; [assumption|]. now apply Hnone. }
  induction ops as [|op ops IH]; intros st x x' Hst Hf Hx Hx'; simpl in Hx'.
  - rewrite Hx in Hx'. injection Hx' as <-. apply Hrefl.
  - apply Forall_cons_iff in Hf. destruct Hf as [Hop Hf].
    destruct (look (exec op st)) as [y|] eqn:Ey.
    + apply Htrans with y.
      * now apply (Hstep op st).
      * apply (IH (exec op st)); auto.
    + rewrite (Hgone ops (exec op st) Hf Ey) in Hx'. discriminate.
Qed.

Lemma videos_edit_identity l o l' j x x' :
  videos_edit l o l' -> NoDup (map v_id l) ->
  find (has_video_id j) l = Some x -> find (has_video_id j) l' = Some x' ->
  same_identity x x'.
Proof.
  intros [o'|nv Hnv|o' i f Hid|o' i] Hnd Hx Hx'.
  - assert (x' = x) by congruence. subst. apply same_identity_refl.
  - rewrite (find_app_some _ _ _ _ Hx) in Hx'.
    assert (x' = x) by congruence. subst. apply same_identity_refl.
  - destruct (keyed_find_update Video v_id i j f l x) as [H|[_ H]].
    + intros y _. apply Hid.
    + exact Hx.
    + change (has_key v_id) with has_video_id in H.
      assert (x' = x) by congruence. subst. apply same_identity_refl.
    + change (has_key v_id) with has_video_id in H.
      assert (x' = f x) by congruence. subst. apply Hid.
  - rewrite (keyed_find_remove Video v_id i j l x x' Hnd Hx Hx').
    apply same_identity_refl.
Qed.

Lemma videos_edit_none l o l' j :
  videos_edit l o l' -> o <> Some j ->
  find (has_video_id j) l = None -> find (has_video_id j) l' = None.
Proof.
  intros [o'|nv Hnv|o' i f Hid|o' i] Ho Hx.
  - assumption.
  - rewrite (find_app_none _ _ _ Hx). simpl.
    destruct (has_video_id j nv) eqn:E; [|reflexivity].
    apply String.eqb_eq in E. congruence.
  - apply (keyed_find_update_none Video v_id); [|assumption].
    intros y _. apply Hid.
  - now apply find_remove_none.
Qed.

(** X4: along any sequence of requests, a stored video keeps its
    identifier, its owner, its creation time, its media file and its
    duration (identifiers are unique and the identifier of the video is
    not issued a second time). *)
Theorem video_identity_is_fixed ops st i x x' :
  unique_video_ids st ->
  Forall (fun op => created_id op <> Some i) ops ->
  find (has_video_id i) (videos st) = Some x ->
  find (has_video_id i) (videos (run ops st)) = Some x' ->
  same_identity x x'.
Proof.
  apply (run_preserved (fun s => find (has_video_id i) (videos s)) same_identity
           unique_video_ids (fun op => created_id op <> Some i)).
  - apply same_identity_refl.
  - apply same_identity_trans.
  - intros op s Hs. exact (videos_edit_unique _ _ _ (exec_videos_edit op s) Hs).
  - intros op s y y' Hs. exact (videos_edit_identity _ _ _ _ _ _ (exec_videos_edit op s) Hs).
  - intros op s Hop. exact (videos_edit_none _ _ _ _ (exec_videos_edit op s) Hop).
Qed.

Lemma playlists_edit_identity l o l' j x x' :
  playlists_edit l o l' -> NoDup (map p_id l) ->
  find (has_playlist_id j) l = Some x -> find (has_playlist_id j) l' = Some x' ->
  same_playlist_identity x x'.
Proof.
  intros [o'|np Hnp|o' i f Hid|o' i] Hnd Hx Hx'.
  - assert (x' = x) by congruence. subst. split; reflexivity.
  - rewrite (find_app_some _ _ _ _ Hx) in Hx'.
    assert (x' = x) by congruence. subst. split; reflexivity.
  - destruct (keyed_find_update Playlist p_id i j f l x) as [H|[Hi H]].
    + intros y Hy. now apply Hid.
    + exact Hx.
    + change (has_key p_id) with has_playlist_id in H.
      assert (x' = x) by congruence. subst. split; reflexivity.
    + change (has_key p_id) with has_playlist_id in H, Hi.
      assert (x' = f x) by congruence. subst. now apply Hid.
  - rewrite (keyed_find_remove Playlist p_id i j l x x' Hnd Hx Hx').
    split; reflexivity.
Qed.

Lemma playlists_edit_none l o l' j :
  playlists_edit l o l' -> o <> Some j ->
  find (has_playlist_id j) l = None -> find (has_playlist_id j) l' = None.
Proof.
  intros [o'|np Hnp|o' i f Hid|o' i] Ho Hx.
  - assumption.
  - rewrite (find_app_none _ _ _ Hx). simpl.
    destruct (has_playlist_id j np) eqn:E; [|reflexivity].
    apply String.eqb_eq in E. congruence.
  - apply (keyed_find_update_none Playlist p_id); [|assumption].
    intros y Hy. now apply Hid.
  - now apply find_remove_none.
Qed.

(** X5: along any sequence of requests, a stored playlist keeps its
    identifier and its owner, whoever adds or removes videos or updates
    it (identifiers are unique and the identifier of the playlist is not
    issued a second time). *)
Theorem playlist_owner_is_fixed ops st i p p' :
  unique_playlist_ids st ->
  Forall (fun op => created_playlist_id op <> Some i) ops ->
  find (has_playlist_id i) (playlists st) = Some p ->
  find (has_playlist_id i) (playlists (run ops st)) = Some p' ->
  p_id p' = p_id p /\ p_owner p' = p_owner p.
Proof.
  apply (run_preserved (fun s => find (has_playlist_id i) (playlists s))
           same_playlist_identity
           unique_playlist_ids (fun op => created_playlist_id op <> Some i)).
  - intros q. split; reflexivity.
  - unfold same_playlist_identity. intuition congruence.
  - intros op s Hs. exact (playlists_edit_unique _ _ _ (exec_playlists_edit op s) Hs).
  - intros op s y y' Hs.
    exact (playlists_edit_identity _ _ _ _ _ _ (exec_playlists_edit op s) Hs).
  - intros op s Hop. exact (playlists_edit_none _ _ _ _ (exec_playlists_edit op s) Hop).
Qed.

(** ** Updates by the owner *)

Lemma filter_find_none {A} (p : A -> bool) (l : list A) :
  find p l = None -> filter p l = [].
Proof.
  induction l as [|x l IH]; simpl; [reflexivity|].
  destruct (p x); [discriminate|exact IH].
Qed.


(** X6: for the owner of a stored video, [updateVideo] with at least one
    of title, description and thumbnail file replaces exactly the fields
    that are sent and not empty, stores the result and returns it; view
    counter, publish flag, owner and the other fields stay.  When the
    thumbnail upload returns nothing, the answer is 500 and nothing is
    stored. *)
Theorem updateVideo_partial_update req st v :
  isValidObjectId (param req "videoId") = true ->
  find (has_video_id (toObjectId (param req "videoId"))) (videos st) = Some v ->
  user req = Some (v_owner v) ->
  JS.truthy (body req "title") || JS.truthy (body req "description")
  || match file req with Some _ => true | None => false end = true ->
  (forall th, uploaded_thumbnail req = Some th ->
     exists v' st',
       updateVideo req st = (ApiResponse 200 (Some v') "Video updated successfully!", st') /\
       find (has_video_id (toObjectId (param req "videoId"))) (videos st') = Some v' /\
       title v' = updated (title v) (body req "title") /\
       description v' = updated (description v) (body req "description") /\
       thumbnail v' = match th with Some url => url | None => thumbnail v end /\
       views v' = views v /\ isPublished v' = isPublished v /\ same_identity v v') /\
  (forall path, file req = Some path ->
     uploadOnCloudinary path "thumbnails" = UploadNull ->
     updateVideo req st = (ApiError 500 "Failed to upload thumbnail", st)).
Proof.
  intros Hvalid Hfind Hu Hsome.
  assert (Hd : differs_from_caller (v_owner v) req = Some false).
  { unfold differs_from_caller. rewrite Hu. cbn [option_map].
    now rewrite String.eqb_refl. }
  assert (Hguard : negb (JS.truthy (body req "title"))
                   && negb (JS.truthy (body req "description"))
                   && match file req with Some _ => false | None => true end = false).
  { destruct (JS.truthy (body req "title")), (JS.truthy (body req "description")),
      (file req); simpl in *; congruence. }
  split.
  - intros th Hth.
    set (f := set_fields (keep_truthy (body req "title"))
                (keep_truthy (body req "description")) th).
    assert (Hstored :
      find (has_video_id (toObjectId (param req "videoId")))
        (update_first (has_video_id (toObjectId (param req "videoId"))) f (videos st))
      = Some (f v)) by now apply find_update_first.
    exists (f v), (set_videos st
                    (update_first (has_video_id (toObjectId (param req "videoId"))) f
                       (videos st))).
    split; [|split; [exact Hstored|]].
    + unfold updateVideo. rewrite Hvalid, Hguard, Hfind, Hd. cbn [negb].
      unfold uploaded_thumbnail in Hth. destruct (file req) as [path|].
      * destruct (uploadOnCloudinary path "thumbnails"); try discriminate.
        injection Hth as <-. fold f. now rewrite Hstored.
      * injection Hth as <-. fold f. now rewrite Hstored.
    + subst f. cbn [set_fields title description thumbnail views isPublished].
      unfold keep_truthy, updated, JS.truthy.
      repeat split.
      * destruct (body req "title") as [t|]; [|reflexivity].
        now destruct (String.eqb t "").
      * destruct (body req "description") as [d|]; [|reflexivity].
        now destruct (String.eqb d "").
  - intros path Hfile Hup. unfold updateVideo.
    rewrite Hvalid, Hguard, Hfind, Hd, Hfile, Hup. reflexivity.
Qed.


(** ** Deletion *)

(** X8: when the owner deletes a stored video, a later fetch of that
    identifier answers 404; the other videos are untouched, and so are
    the playlists and the likes: references to the deleted video stay
    where they are. *)
Theorem deleteVideo_then_not_found req st v :
  unique_video_ids st ->
  isValidObjectId (param req "videoId") = true ->
  find (has_video_id (toObjectId (param req "videoId"))) (videos st) = Some v ->
  user req = Some (v_owner v) ->
  exists st',
    deleteVideo req st = (ApiResponse 200 tt "Video deleted successfully!", st') /\
    (forall req', param req' "videoId" = param req "videoId" ->
       getVideoById req' st' = (ApiError 404 "Video not found", st')) /\
    (forall j, j <> toObjectId (param req "videoId") ->
       find (has_video_id j) (videos st') = find (has_video_id j) (videos st)) /\
    playlists st' = playlists st /\ likes st' = likes st.
Proof.
  intros Hnd Hvalid Hfind Hu.
  assert (Hd : differs_from_caller (v_owner v) req = Some false).
  { unfold differs_from_caller. rewrite Hu. cbn [option_map].
    now rewrite String.eqb_refl. }
  eexists. split.
  { unfold deleteVideo. rewrite Hvalid, Hfind, Hd. reflexivity. }
  cbn [videos playlists likes set_videos]. split; [|split; [|split; reflexivity]].
  - intros req' Hp. unfold getVideoById. rewrite Hp, Hvalid. cbn [negb videos set_videos].
    rewrite filter_find_none; [reflexivity|].
    exact (keyed_find_removed Video v_id _ _ Hnd).
  - intros j Hj. apply find_remove_first_other.
    intros y. apply has_video_id_neq. congruence.
Qed.

(** X9: when the owner deletes a stored playlist, a later fetch of that
    identifier answers 404, and the other playlists and all videos are
    untouched. *)
Theorem deletePlaylist_then_not_found req st p :
  unique_playlist_ids st ->
  isValidObjectId (param req "playlistId") = true ->
  find (has_playlist_id (toObjectId (param req "playlistId"))) (playlists st) = Some p ->
  user req = Some (p_owner p) ->
  exists st',
    deletePlaylist req st = (ApiResponse 200 tt "Playlist deleted successfully", st') /\
    (forall req', param req' "playlistId" = param req "playlistId" ->
       getPlaylistById req' st' = (ApiError 404 "Playlist not found", st')) /\
    (forall j, j <> toObjectId (param req "playlistId") ->
       find (has_playlist_id j) (playlists st') = find (has_playlist_id j) (playlists st)) /\
    videos st' = videos st.
Proof.
  intros Hnd Hvalid Hfind Hu.
  assert (Hd : differs_from_caller (p_owner p) req = Some false).
  { unfold differs_from_caller. rewrite Hu. cbn [option_map].
    now rewrite String.eqb_refl. }
  eexists. split.
  { unfold deletePlaylist. rewrite Hvalid, Hfind, Hd. reflexivity. }
  cbn [videos playlists set_playlists]. split; [|split; [|reflexivity]].
  - intros req' Hp. unfold getPlaylistById.
    rewrite Hp, Hvalid. cbn [negb playlists set_playlists].
    pose proof (keyed_find_removed Playlist p_id
                  (toObjectId (param req "playlistId")) _ Hnd) as E.
    change (has_key p_id) with has_playlist_id in E. now rewrite E.
  - intros j Hj. apply find_remove_first_other.
    intros y Hy. unfold has_playlist_id in *. apply String.eqb_eq in Hy.
    apply String.eqb_neq. congruence.
Qed.

(** ** Playlist membership *)

Lemma set_playlists_twice st a b :
  set_playlists (set_playlists st a) b = set_playlists st b.
Proof. reflexivity. Qed.

Lemma set_p_videos_same p : set_p_videos (p_videos p) p = p.
Proof. now destruct p. Qed.

Lemma filter_out_absent (i : string) (l : list string) :
  ~ In i l -> filter (fun vid => negb (String.eqb vid i)) l = l.
Proof.
  induction l as [|y l IH]; simpl; [reflexivity|]. intros H.
  destruct (String.eqb_spec y i) as [->|Hy]; simpl.
  - exfalso. apply H. now left.
  - rewrite IH; [reflexivity|]. intros Hin. apply H. now right.
Qed.

(** X10: for an identifier in canonical form that a stored playlist does
    not hold, [addVideoToPlaylist] appends it to the stored list; adding it
    again is then refused with 400, and [removeVideoFromPlaylist] brings
    all collections back to what they were before the addition. *)
Theorem add_then_remove_round_trip req st p :
  isValidObjectId (param req "playlistId") = true ->
  isValidObjectId (param req "videoId") = true ->
  toObjectId (param req "videoId") = param req "videoId" ->
  find (has_playlist_id (toObjectId (param req "playlistId"))) (playlists st) = Some p ->
  ~ In (param req "videoId") (p_videos p) ->
  exists st',
    snd (addVideoToPlaylist req st) = st' /\
    option_map p_videos
      (find (has_playlist_id (toObjectId (param req "playlistId"))) (playlists st'))
    = Some (p_videos p ++ [param req "videoId"])%list /\
    addVideoToPlaylist req st' = (ApiError 400 "Video already in playlist", st') /\
    removeVideoFromPlaylist req st'
    = (ApiResponse 200 p "Video removed from playlist successfully", st).
Proof.
  intros Hp Hv Hcanon Hfind Hin. eexists. split; [reflexivity|].
  destruct (find_has_playlist_id _ _ _ Hfind) as [_ Hid].
  assert (Hfind0 : find (has_playlist_id (p_id p)) (playlists st) = Some p)
    by now rewrite Hid.
  assert (Hadd : addVideoToPlaylist req st
                 = (ApiResponse 200
                      (set_p_videos (p_videos p ++ [param req "videoId"]) p)
                      "Video added to playlist successfully",
                    save_videos (set_p_videos (p_videos p ++ [param req "videoId"]) p) st)).
  { unfold addVideoToPlaylist. rewrite Hp, Hv, Hfind, Hcanon. cbn [negb orb].
    apply includes_not_In in Hin. now rewrite Hin. }
  rewrite Hadd. cbn [snd].
  pose proof (save_videos_stored st p (p_videos p ++ [param req "videoId"])%list Hfind0)
    as Hstored.
  rewrite Hid in Hstored. rewrite Hstored. cbn [option_map p_videos set_p_videos].
  split; [reflexivity|]. split.
  - unfold addVideoToPlaylist. rewrite Hp, Hv, Hstored. cbn [negb orb p_videos set_p_videos].
    replace (includes _ _) with true; [reflexivity|].
    symmetry. apply includes_In, in_or_app. right. now left.
  - unfold removeVideoFromPlaylist.
    rewrite Hp, Hv, Hstored. cbn [negb orb p_videos set_p_videos].
    replace (includes _ _) with true.
    2:{ symmetry. apply includes_In, in_or_app. right. now left. }
    cbn [negb].
    match goal with |- context [filter ?f (p_videos p ++ ?t)%list] =>
      replace (filter f (p_videos p ++ t)%list) with (p_videos p) end.
    2:{ symmetry. etransitivity; [apply filter_app|].
        transitivity (p_videos p ++ [])%list; [|apply app_nil_r].
        f_equal; [exact (filter_out_absent _ _ Hin)|].
        cbn [filter]. now rewrite String.eqb_refl. }
    assert (Hback : set_p_videos (p_videos p)
                      (set_p_videos (p_videos p ++ [param req "videoId"]) p) = p)
      by now destruct p.
    rewrite Hback. f_equal.
    unfold save_videos. cbn [playlists set_playlists p_id p_videos set_p_videos].
    rewrite set_playlists_twice, update_first_twice by reflexivity.
    match goal with |- context [update_first ?q ?f (playlists st)] =>
      replace (update_first q f (playlists st)) with (playlists st) end.
    + now destruct st.
    + symmetry. apply update_first_fix with (x := p); [exact Hfind0|]. now destruct p.
Qed.

(** ** The dashboard *)

Lemma sumZ_ext {A} (f g : A -> Z) (l : list A) :
  (forall x, In x l -> f x = g x) -> sumZ f l = sumZ g l.
Proof.
  induction l as [|x l IH]; simpl; [reflexivity|]. intros H.
  rewrite (H x) by now left. rewrite IH; [reflexivity|].
  intros y Hy. apply H. now right.
Qed.

Lemma sumZ_add {A} (f g : A -> Z) (l : list A) :
  sumZ (fun x => f x + g x) l = sumZ f l + sumZ g l.
Proof. induction l as [|x l IH]; simpl; [reflexivity|]. rewrite IH. lia. Qed.

Lemma sumZ_zero {A} (l : list A) : sumZ (fun _ => 0) l = 0.
Proof. induction l as [|x l IH]; simpl; [reflexivity|exact IH]. Qed.

Lemma sumZ_swap {A B} (h : A -> B -> Z) (xs : list A) (ys : list B) :
  sumZ (fun x => sumZ (fun y => h x y) ys) xs
  = sumZ (fun y => sumZ (fun x => h x y) xs) ys.
Proof.
  induction xs as [|x xs IH]; simpl.
  - now rewrite sumZ_zero.
  - rewrite IH. now rewrite <- sumZ_add.
Qed.

Lemma sumZ_filter {A} (f : A -> Z) (p : A -> bool) (l : list A) :
  sumZ f (filter p l) = sumZ (fun x => if p x then f x else 0) l.
Proof.
  induction l as [|x l IH]; simpl; [reflexivity|].
  destruct (p x); simpl; rewrite IH; reflexivity.
Qed.

Lemma length_filter_sumZ {A} (p : A -> bool) (l : list A) :
  Z.of_nat (List.length (filter p l)) = sumZ (fun x => if p x then 1 else 0) l.
Proof.
  induction l as [|x l IH]; simpl; [reflexivity|].
  destruct (p x); simpl List.length; rewrite <- IH; lia.
Qed.

Lemma length_flat_map_sumZ {A B} (F : A -> list B) (l : list A) :
  Z.of_nat (List.length (flat_map F l)) = sumZ (fun x => Z.of_nat (List.length (F x))) l.
Proof.
  induction l as [|x l IH]; simpl; [reflexivity|].
  rewrite length_app, <- IH. lia.
Qed.

Lemma filter_flat_map {A B} (p : B -> bool) (F : A -> list B) (l : list A) :
  filter p (flat_map F l) = flat_map (fun x => filter p (F x)) l.
Proof.
  induction l as [|x l IH]; simpl; [reflexivity|].
  now rewrite filter_app, IH.
Qed.

Lemma or_zero_group_length {A} (l : list A) :
  or_zero (hd_error (group_null (fun l => Z.of_nat (List.length l)) l))
  = Z.of_nat (List.length l).
Proof. now destruct l. Qed.

(** The likes on the videos of a channel, counted like by like as
    [getChannelStats] does and video by video as [getChannelVideos] does. *)
Lemma likes_counted_twice st c :
  Z.of_nat (List.length
    (filter (fun lv : Like * Video => String.eqb (v_owner (snd lv)) c)
       (flat_map (like_video_details st) (likes st))))
  = sumZ (fun v => likes_of st (v_id v))
      (filter (fun v => String.eqb (v_owner v) c) (videos st)).
Proof.
  set (hit := fun (l : Like) (v : Video) =>
                match l_video l with
                | Some i => String.eqb (v_id v) i
                | None => false
                end).
  rewrite filter_flat_map, length_flat_map_sumZ.
  rewrite (sumZ_ext _ (fun l => sumZ (fun v => if hit l v && String.eqb (v_owner v) c
                                               then 1 else 0) (videos st))).
  2:{ intros l _. unfold like_video_details. fold (hit l).
      induction (videos st) as [|v vs IH]; simpl; [reflexivity|].
      destruct (hit l v); simpl; [|exact IH].
      destruct (String.eqb (v_owner v) c); simpl List.length; rewrite <- IH; lia. }
  rewrite sumZ_swap, sumZ_filter.
  apply sumZ_ext. intros v _. unfold likes_of. rewrite length_filter_sumZ.
  destruct (String.eqb (v_owner v) c).
  - apply sumZ_ext. intros l _. unfold hit. rewrite andb_true_r.
    destruct (l_video l) as [i|]; [|reflexivity]. now rewrite String.eqb_sym.
  - transitivity (sumZ (fun _ : Like => 0) (likes st)); [|apply sumZ_zero].
    apply sumZ_ext. intros l _. now rewrite andb_false_r.
Qed.

(** X11: for an authenticated caller, [getChannelStats] answers 200 with
    the number of subscriptions to the channel, the number and the view
    sum of the channel's videos, and a like total that is the sum, over
    the channel's videos, of the likes that reference each video. *)
Theorem getChannelStats_rollup req st c :
  user req = Some c ->
  exists stats,
    getChannelStats req st
    = (ApiResponse 200 stats "Channel stats fetched successfully", st) /\
    totalSubscribers stats
    = Z.of_nat (List.length (filter (fun s => String.eqb (channel s) c) (subscriptions st))) /\
    cs_totalVideos stats
    = Z.of_nat (List.length (filter (fun v => String.eqb (v_owner v) c) (videos st))) /\
    totalViews stats = sumZ views (filter (fun v => String.eqb (v_owner v) c) (videos st)) /\
    totalLikes stats
    = sumZ (fun v => likes_of st (v_id v))
        (filter (fun v => String.eqb (v_owner v) c) (videos st)).
Proof.
  intros Hu. unfold getChannelStats. rewrite Hu. eexists. split; [reflexivity|].
  cbn [totalSubscribers cs_totalVideos totalViews totalLikes].
  split; [reflexivity|]. split; [|split].
  - now destruct (filter _ (videos st)).
  - now destruct (filter _ (videos st)).
  - rewrite or_zero_group_length. apply likes_counted_twice.
Qed.



(** ** The filters and the pages of the listings *)

Lemma truthy_nonempty s : s <> "" -> JS.truthy (Some s) = true.
Proof. intros H. unfold JS.truthy. now destruct (String.eqb_spec s ""). Qed.

Lemma feed_conditions_owner req mc u :
  feed_conditions req = Some mc ->
  query req "userId" = Some u -> u <> "" ->
  isValidObjectId u = true /\ mc_owner mc = Some (toObjectId u).
Proof.
  unfold feed_conditions. intros Hc Hu Hne.
  rewrite Hu, (truthy_nonempty u Hne) in Hc.
  destruct (isValidObjectId u); cbn [negb option_map] in Hc; [|discriminate].
  injection Hc as <-. split; reflexivity.
Qed.

Lemma feed_conditions_or req mc q :
  feed_conditions req = Some mc ->
  query req "query" = Some q -> q <> "" ->
  mc_or mc = Some q.
Proof.
  unfold feed_conditions. intros Hc Hq Hne.
  rewrite Hq, (truthy_nonempty q Hne) in Hc.
  destruct (query req "userId") as [u|].
  - destruct (JS.truthy (Some u)).
    + destruct (isValidObjectId u); cbn [negb option_map] in Hc; [|discriminate].
      now injection Hc as <-.
    + now injection Hc as <-.
  - now injection Hc as <-.
Qed.

(** X13: every video that [getAllVideos] returns satisfies each filter
    the request carries: with a non-empty userId, the identifier is well
    formed and the video belongs to that user; with a non-empty query, the
    pattern matches the title or the description. *)
Theorem getAllVideos_applies_filters req st code vs pg msg st' :
  getAllVideos req st = (ApiResponse code (vs, pg) msg, st') ->
  forall it, In it vs ->
    (forall u, query req "userId" = Some u -> u <> "" ->
       isValidObjectId u = true /\ v_owner (item_video it) = toObjectId u) /\
    (forall q, query req "query" = Some q -> q <> "" ->
       exists test, regex q = Some test /\
         test (title (item_video it)) || test (description (item_video it)) = true).
Proof.
  intros H it Hit.
  destruct (getAllVideos_inv _ _ _ _ _ _ _ H) as (mc & m & Hc & Hm & Hincl & _).
  apply Hincl, in_map_iff in Hit. destruct Hit as (v & <- & Hv).
  apply filter_In in Hv. destruct Hv as [_ Hmv]. cbn [lookup_owner item_video].
  unfold compile_match in Hm. split.
  - intros u Hu Hne.
    destruct (feed_conditions_owner _ _ _ Hc Hu Hne) as [Hvalid Ho].
    split; [assumption|]. rewrite Ho in Hm.
    destruct (mc_or mc) as [q|].
    + destruct (regex q); [|discriminate]. injection Hm as <-.
      apply andb_true_iff in Hmv. destruct Hmv as [_ Hmv].
      apply andb_true_iff in Hmv. destruct Hmv as [Hmv _]. now apply String.eqb_eq.
    + injection Hm as <-.
      apply andb_true_iff in Hmv. destruct Hmv as [Hmv _]. now apply String.eqb_eq.
  - intros q Hq Hne. rewrite (feed_conditions_or _ _ _ Hc Hq Hne) in Hm.
    destruct (regex q) as [test|]; [|discriminate]. injection Hm as <-.
    exists test. split; [reflexivity|].
    apply andb_true_iff in Hmv. now destruct Hmv as [Hmv _].
Qed.



(** ** The order of the listings *)

Lemma insert_by_ext {A} (le le' : A -> A -> bool) x (l : list A) :
  (forall a b, le a b = le' a b) -> Mongo.insert_by le x l = Mongo.insert_by le' x l.
Proof.
  intros H. induction l as [|y l IH]; simpl; [reflexivity|].
  now rewrite H, IH.
Qed.

Lemma sort_by_ext {A} (le le' : A -> A -> bool) (l : list A) :
  (forall a b, le a b = le' a b) -> Mongo.sort_by le l = Mongo.sort_by le' l.
Proof.
  intros H. induction l as [|y l IH]; simpl; [reflexivity|].
  now rewrite IH, (insert_by_ext le le' _ _ H).
Qed.

Lemma leb_by_ordered {A} (g : A -> Z) desc x y :
  leb_by g desc x y = true <-> ordered_by g desc x y.
Proof. unfold leb_by, ordered_by. destruct desc; apply Z.leb_le. Qed.

Lemma ordered_by_trans {A} (g : A -> Z) desc x y z :
  ordered_by g desc x y -> ordered_by g desc y z -> ordered_by g desc x z.
Proof. unfold ordered_by. destruct desc; lia. Qed.

Lemma insert_by_sorted {A} (g : A -> Z) desc x (l : list A) :
  StronglySorted (ordered_by g desc) l ->
  StronglySorted (ordered_by g desc) (Mongo.insert_by (leb_by g desc) x l).
Proof.
  induction l as [|y l IH]; simpl; intros Hs.
  - constructor; [constructor|constructor].
  - apply StronglySorted_inv in Hs. destruct Hs as [Hl Hy].
    destruct (leb_by g desc x y) eqn:E.
    + apply leb_by_ordered in E. constructor.
      * constructor; assumption.
      * constructor; [assumption|].
        eapply Forall_impl; [|exact Hy]. intros z Hz.
        now apply (ordered_by_trans g desc x y z).
    + assert (Hyx : ordered_by g desc y x).
      { unfold leb_by, ordered_by in *. destruct desc; apply Z.leb_gt in E; lia. }
      constructor; [now apply IH|].
      apply (Permutation_Forall (Permutation_sym (insert_by_perm _ x l))).
      constructor; assumption.
Qed.

Lemma sort_by_sorted {A} (g : A -> Z) desc (l : list A) :
  StronglySorted (ordered_by g desc) (Mongo.sort_by (leb_by g desc) l).
Proof.
  induction l as [|x l IH]; simpl; [constructor|].
  now apply insert_by_sorted.
Qed.

Lemma sorted_skipn {A} (R : A -> A -> Prop) n (l : list A) :
  StronglySorted R l -> StronglySorted R (skipn n l).
Proof.
  revert l. induction n as [|n IH]; intros l Hs; [assumption|].
  destruct l as [|x l]; [assumption|]. simpl.
  apply IH. now apply StronglySorted_inv in Hs.
Qed.

Lemma sorted_firstn {A} (R : A -> A -> Prop) n (l : list A) :
  StronglySorted R l -> StronglySorted R (firstn n l).
Proof.
  revert l. induction n as [|n IH]; intros l Hs; [constructor|].
  destruct l as [|x l]; [constructor|]. simpl.
  apply StronglySorted_inv in Hs. destruct Hs as [Hl Hx].
  constructor; [now apply IH|].
  apply Forall_forall. intros y Hy. rewrite Forall_forall in Hx. apply Hx.
  rewrite <- (firstn_skipn n l). apply in_or_app. now left.
Qed.

Lemma before_numbers d a b :
  Mongo.before d (Mongo.KVal (VNum a)) (Mongo.KVal (VNum b))
  = if d <? 0 then b <=? a else a <=? b.
Proof.
  unfold Mongo.before. cbn [Mongo.compare_key Mongo.compare_scalar].
  destruct (Z.compare_spec a b), (Z.ltb_spec d 0), (Z.leb_spec 0 d); try lia;
    symmetry; first [apply Z.leb_le; lia | apply Z.leb_gt; lia].
Qed.

Lemma before_dates d a b :
  Mongo.before d (Mongo.KVal (VDate a)) (Mongo.KVal (VDate b))
  = if d <? 0 then b <=? a else a <=? b.
Proof.
  unfold Mongo.before. cbn [Mongo.compare_key Mongo.compare_scalar].
  destruct (Z.compare_spec a b), (Z.ltb_spec d 0), (Z.leb_spec 0 d); try lia;
    symmetry; first [apply Z.leb_le; lia | apply Z.leb_gt; lia].
Qed.

(** The three last stages on a key that is an integer for every element:
    the result is ordered by that integer, in the direction of [d]. *)
Lemma sort_skip_limit_ordered {A} (key : list string -> A -> Mongo.SortKey)
    (g : A -> Z) f d s k (l vs : list A) :
  (forall x y, Mongo.before d (key (Mongo.path f) x) (key (Mongo.path f) y)
               = leb_by g (d <? 0) x y) ->
  sort_skip_limit key f d s k l = Some vs ->
  StronglySorted (ordered_by g (d <? 0)) vs.
Proof.
  intros Hkey. unfold sort_skip_limit, Mongo.sort, Mongo.skip, Mongo.limit.
  destruct (Mongo.validFieldPath f); [|discriminate].
  destruct s as [s|]; [|discriminate]. destruct (0 <=? s); [|discriminate].
  destruct k as [k|]; [|discriminate]. destruct (1 <=? k); [|discriminate].
  intros [= <-]. apply sorted_firstn, sorted_skipn.
  rewrite (sort_by_ext _ (leb_by g (d <? 0)) l Hkey). apply sort_by_sorted.
Qed.

Lemma getAllVideos_stages req st code vs pg msg st' :
  getAllVideos req st = (ApiResponse code (vs, pg) msg, st') ->
  exists m all,
    all = map (lookup_owner st) (filter m (videos st)) /\
    sort_skip_limit item_key (fst (feed_sort req)) (snd (feed_sort req))
      (JS.mul (JS.sub (parseInt_or 1 (query req "page")) (Some 1))
         (parseInt_or 10 (query req "limit")))
      (parseInt_or 10 (query req "limit")) all = Some vs.
Proof.
  unfold getAllVideos.
  destruct (feed_conditions req) as [mc|]; [|discriminate].
  destruct (compile_match mc) as [m|] eqn:Em; [|discriminate].
  match goal with |- context [sort_skip_limit ?k ?f ?d ?s ?l ?all] =>
    destruct (sort_skip_limit k f d s l all) as [vs'|] eqn:Es end; [|discriminate].
  intros [= _ <- _ _ _]. exists m. eexists. split; [reflexivity|exact Es].
Qed.

Lemma getChannelVideos_stages req st code vs pg msg st' :
  getChannelVideos req st = (ApiResponse code (vs, pg) msg, st') ->
  exists all,
    sort_skip_limit channel_item_key
      (match query req "sortBy" with Some f => f | None => "createdAt" end)
      (if String.eqb (match query req "sortType" with Some t => t | None => "desc" end)
            "desc" then -1 else 1)
      (JS.mul (JS.sub (parseInt_or 1 (query req "page")) (Some 1))
         (parseInt_or 10 (query req "limit")))
      (parseInt_or 10 (query req "limit")) all = Some vs.
Proof.
  unfold getChannelVideos. destruct (user req) as [c|]; [|discriminate].
  match goal with |- context [sort_skip_limit ?k ?f ?d ?s ?l ?all] =>
    destruct (sort_skip_limit k f d s l all) as [vs'|] eqn:Es end; [|discriminate].
  intros [= _ <- _ _ _]. eexists. exact Es.
Qed.

(** X15: the order of the listings.  Without both sortBy and sortType,
    [getAllVideos] returns the newest video first; with sortBy=views it
    orders by view counter, descending for sortType "desc" and ascending
    for every other sortType.  Without sortBy and sortType,
    [getChannelVideos] returns the newest video first; with
    sortBy=likesCount it orders by the number of likes. *)
Theorem listings_are_ordered req st :
  (forall code vs pg msg st',
      getAllVideos req st = (ApiResponse code (vs, pg) msg, st') ->
      (JS.truthy (query req "sortBy") && JS.truthy (query req "sortType") = false ->
       StronglySorted (ordered_by (fun it => createdAt (item_video it)) true) vs) /\
      (forall t, query req "sortBy" = Some "views" ->
                 query req "sortType" = Some t -> t <> "" ->
       StronglySorted
         (ordered_by (fun it => views (item_video it)) (String.eqb t "desc")) vs)) /\
  (forall code vs pg msg st',
      getChannelVideos req st = (ApiResponse code (vs, pg) msg, st') ->
      (query req "sortBy" = None -> query req "sortType" = None ->
       StronglySorted (ordered_by (fun it => createdAt (cv_video it)) true) vs) /\
      (forall t, query req "sortBy" = Some "likesCount" ->
                 query req "sortType" = Some t ->
       StronglySorted (ordered_by likesCount (String.eqb t "desc")) vs)).
Proof.
  split.
  - intros code vs pg msg st' H.
    destruct (getAllVideos_stages _ _ _ _ _ _ _ H) as (m & all & _ & Hs).
    unfold feed_sort in Hs. split.
    + intros Hdef. rewrite Hdef in Hs. cbn [fst snd] in Hs.
      apply (sort_skip_limit_ordered item_key (fun it => createdAt (item_video it))) in Hs;
        [exact Hs|].
      intros x y. apply (before_dates (-1)).
    + intros t Hby Ht Hne. rewrite Hby, Ht in Hs.
      rewrite (truthy_nonempty t Hne) in Hs. cbn [JS.truthy String.eqb negb andb fst snd] in Hs.
      cbn [opt_eqb] in Hs.
      apply (sort_skip_limit_ordered item_key (fun it => views (item_video it))) in Hs.
      * now destruct (String.eqb t "desc").
      * intros x y. apply before_numbers.
  - intros code vs pg msg st' H.
    destruct (getChannelVideos_stages _ _ _ _ _ _ _ H) as (all & Hs). split.
    + intros Hby Ht. rewrite Hby, Ht in Hs. cbn [String.eqb] in Hs.
      apply (sort_skip_limit_ordered channel_item_key
               (fun it => createdAt (cv_video it))) in Hs; [exact Hs|].
      intros x y. apply (before_dates (-1)).
    + intros t Hby Ht. rewrite Hby, Ht in Hs.
      apply (sort_skip_limit_ordered channel_item_key likesCount) in Hs.
      * now destruct (String.eqb t "desc").
      * intros x y. apply before_numbers.
Qed.

(** ** Creation *)

(** X16: with a title and a description that are not empty, both files,
    two uploads that return an asset, an authenticated caller and a new
    identifier, [publishAVideo] answers 201 and appends a video with the
    caller as owner, the uploaded addresses, the duration of the uploaded
    video and the schema's defaults.  It stores a video in no other case:
    whenever it answers, all of this held, the video is found under its
    identifier and the videos stored before are unchanged. *)
Theorem publishAVideo_stores_uploaded_video new_id now req st :
  (forall t d vpath tpath vurl vdur turl tdur caller,
      body req "title" = Some t -> t <> "" ->
      body req "description" = Some d -> d <> "" ->
      files req "videoFile" = Some vpath -> files req "thumbnail" = Some tpath ->
      uploadOnCloudinary vpath "videos" = Uploaded vurl vdur ->
      uploadOnCloudinary tpath "thumbnails" = Uploaded turl tdur ->
      user req = Some caller ->
      existsb (has_video_id new_id) (videos st) = false ->
      let v := {| v_id := new_id; videoFile := vurl; thumbnail := turl; title := t;
                  description := d; duration := vdur; views := default_views;
                  isPublished := default_isPublished; v_owner := caller;
                  createdAt := now |} in
      publishAVideo new_id now req st
      = (ApiResponse 201 v "Video published successfully!",
         set_videos st (videos st ++ [v])%list)) /\
  (forall code v msg st',
      publishAVideo new_id now req st = (ApiResponse code v msg, st') ->
      exists t d vpath tpath tdur,
        body req "title" = Some t /\ t <> "" /\
        body req "description" = Some d /\ d <> "" /\
        files req "videoFile" = Some vpath /\ files req "thumbnail" = Some tpath /\
        uploadOnCloudinary vpath "videos" = Uploaded (videoFile v) (duration v) /\
        uploadOnCloudinary tpath "thumbnails" = Uploaded (thumbnail v) tdur /\
        code = 201 /\ v_id v = new_id /\ user req = Some (v_owner v) /\
        title v = t /\ description v = d /\
        views v = default_views /\ isPublished v = default_isPublished /\
        createdAt v = now /\
        find (has_video_id new_id) (videos st) = None /\
        videos st' = (videos st ++ [v])%list /\
        find (has_video_id new_id) (videos st') = Some v).
Proof.
  split.
  { intros t d vpath tpath vurl vdur turl tdur caller Ht Hte Hd Hde Hv Hth Huv Hut Hu Hnew v.
    unfold publishAVideo, create_video, JS.truthy.
    rewrite Ht, Hd, Hv, Hth, Huv, Hut, Hu.
    destruct (String.eqb_spec t ""); [contradiction|].
    destruct (String.eqb_spec d ""); [contradiction|]. cbn [negb orb v_id].
    now rewrite Hnew. }
  unfold publishAVideo.
  destruct (body req "title") as [t|]; [|discriminate].
  destruct (body req "description") as [d|]; [|discriminate].
  unfold JS.truthy.
  destruct (String.eqb_spec t ""); [discriminate|].
  destruct (String.eqb_spec d ""); [discriminate|]. cbn [negb orb].
  destruct (files req "videoFile") as [vpath|]; [|discriminate].
  destruct (files req "thumbnail") as [tpath|]; [|discriminate].
  destruct (uploadOnCloudinary vpath "videos") as [vurl vdur| |] eqn:Ev;
    try discriminate;
    (destruct (uploadOnCloudinary tpath "thumbnails") as [turl tdur| |] eqn:Et;
     try discriminate).
  destruct (user req) as [caller|]; [|discriminate].
  match goal with |- context [create_video ?nv st] =>
    destruct (create_video nv st) as [st1|] eqn:Ec end; [|discriminate].
  intros code v msg st' [= <- <- _ <-].
  apply create_video_some in Ec. destruct Ec as [Hnew ->].
  cbn [v_id videoFile thumbnail title description duration views isPublished
       v_owner createdAt videos set_videos] in *.
  assert (Hnone : find (has_video_id new_id) (videos st) = None).
  { apply find_none_all. intros x Hx.
    destruct (has_video_id new_id x) eqn:E; [|reflexivity].
    assert (existsb (has_video_id new_id) (videos st) = true); [|congruence].
    apply existsb_exists. eauto. }
  exists t, d, vpath, tpath, tdur.
  repeat (split; [first [assumption | reflexivity]|]).
  rewrite (find_app_none _ _ _ Hnone). unfold find, has_video_id. cbn [v_id].
  now rewrite String.eqb_refl.
Qed.



(** ** Unpublishing *)

Lemma unique_by_id (l : list Video) x y :
  NoDup (map v_id l) -> In x l -> In y l -> v_id x = v_id y -> x = y.
Proof.
  induction l as [|z l IH]; simpl; [intros _ []|]. intros Hnd Hx Hy E.
  apply NoDup_cons_iff in Hnd. destruct Hnd as [Hz Hl].
  destruct Hx as [<-|Hx], Hy as [<-|Hy]; auto.
  - exfalso. apply Hz. rewrite E. now apply in_map.
  - exfalso. apply Hz. rewrite <- E. now apply in_map.
Qed.

(** X18: when the owner unpublishes a published video, no request to
    [getAllVideos] returns it any more, while [getVideoById] still
    returns it, now with the publish flag false. *)
Theorem unpublished_video_leaves_the_feed req st v :
  unique_video_ids st ->
  isValidObjectId (param req "videoId") = true ->
  find (has_video_id (toObjectId (param req "videoId"))) (videos st) = Some v ->
  user req = Some (v_owner v) ->
  isPublished v = true ->
  exists st',
    snd (togglePublishStatus req st) = st' /\
    (forall req' code vs pg msg st'',
        getAllVideos req' st' = (ApiResponse code (vs, pg) msg, st'') ->
        forall it, In it vs -> v_id (item_video it) <> v_id v) /\
    (forall req', param req' "videoId" = param req "videoId" ->
        exists it st'',
          getVideoById req' st' = (ApiResponse 200 it "Video fetched successfully!", st'') /\
          item_video it = set_isPublished false v).
Proof.
  intros Hnd Hvalid Hfind Hu Hpub. eexists. split; [reflexivity|].
  rewrite (togglePublishStatus_owner req st v Hvalid Hfind Hu), Hpub.
  cbn [snd negb].
  set (i := toObjectId (param req "videoId")) in *.
  set (vs' := update_first (has_video_id i) (set_isPublished false) (videos st)).
  assert (Hfind' : find (has_video_id i) vs' = Some (set_isPublished false v))
    by now apply find_update_first.
  assert (Hnd' : NoDup (map v_id vs')).
  { unfold vs'. change (has_video_id i) with (has_key v_id i).
    rewrite (keyed_update_keys Video v_id); [exact Hnd|reflexivity]. }
  split.
  - intros req' code vs pg msg st'' H it Hit E.
    destruct (getAllVideos_inv _ _ _ _ _ _ _ H) as (mc & m & Hc & Hm & Hincl & _).
    destruct (feed_conditions_published _ _ Hc) as [mc' ->].
    apply Hincl, in_map_iff in Hit. destruct Hit as (w & <- & Hw).
    apply filter_In in Hw. destruct Hw as [Hin Hmw].
    cbn [lookup_owner item_video videos set_videos] in *.
    pose proof (compile_match_published _ _ Hm w Hmw) as Hwpub.
    destruct (find_has_video_id _ _ _ Hfind') as [Hin' _].
    assert (w = set_isPublished false v).
    { apply (unique_by_id vs'); auto. }
    subst w. discriminate Hwpub.
  - intros req' Hp. unfold getVideoById. rewrite Hp, Hvalid.
    cbn [negb videos set_videos]. fold i. fold vs'.
    assert (Hhd : exists rest, filter (has_video_id i) vs'
                               = set_isPublished false v :: rest).
    { revert Hfind'. generalize vs'. intros l.
      induction l as [|w ws IH]; simpl; [discriminate|].
      destruct (has_video_id i w); [intros [= ->]; eauto|exact IH]. }
    destruct Hhd as [rest ->]. cbn [map]. do 2 eexists. split; reflexivity.
Qed.

(** ** Reading playlists *)

Lemma populate_ids st p :
  map v_id (pp_videos (populate st p))
  = filter (fun i => existsb (has_video_id i) (videos st)) (p_videos p).
Proof.
  unfold populate. cbn [pp_videos].
  induction (p_videos p) as [|i l IH]; simpl; [reflexivity|].
  rewrite map_app, IH.
  destruct (find (has_video_id i) (videos st)) as [v|] eqn:E.
  - destruct (find_has_video_id _ _ _ E) as [Hin Hid].
    replace (existsb (has_video_id i) (videos st)) with true.
    + simpl. now rewrite Hid.
    + symmetry. apply existsb_exists. exists v. split; [assumption|].
      now apply String.eqb_eq.
  - replace (existsb (has_video_id i) (videos st)) with false; [reflexivity|].
    symmetry. destruct (existsb (has_video_id i) (videos st)) eqn:Ex; [|reflexivity].
    apply existsb_exists in Ex. destruct Ex as (x & Hx & Hi).
    apply (find_none _ _ E) in Hx. congruence.
Qed.

Lemma populate_stored st p : Forall (fun v => In v (videos st)) (pp_videos (populate st p)).
Proof.
  unfold populate. cbn [pp_videos]. apply Forall_forall. intros v Hv.
  apply in_flat_map in Hv. destruct Hv as (i & _ & Hv).
  destruct (find (has_video_id i) (videos st)) as [w|] eqn:E; [|destruct Hv].
  destruct Hv as [<-|[]]. now apply find_has_video_id in E.
Qed.

(** X19: [getPlaylistById] returns the stored playlist together with the
    stored videos its references resolve to, in the order of the
    references, leaving out the references that resolve to no video; and
    [getUserPlaylists] returns, populated in the same way, exactly the
    playlists whose owner is the given user, in stored order. *)
Theorem playlists_are_populated req st :
  (forall p,
      isValidObjectId (param req "playlistId") = true ->
      find (has_playlist_id (toObjectId (param req "playlistId"))) (playlists st) = Some p ->
      exists pp,
        getPlaylistById req st = (ApiResponse 200 pp "Playlist fetched successfully", st) /\
        pp_playlist pp = p /\
        map v_id (pp_videos pp)
        = filter (fun i => existsb (has_video_id i) (videos st)) (p_videos p) /\
        Forall (fun v => In v (videos st)) (pp_videos pp)) /\
  (isValidObjectId (param req "userId") = true ->
   exists pps,
     getUserPlaylists req st = (ApiResponse 200 pps "User playlists fetched successfully", st) /\
     map pp_playlist pps
     = filter (fun p => String.eqb (p_owner p) (toObjectId (param req "userId")))
         (playlists st) /\
     Forall (fun pp =>
               map v_id (pp_videos pp)
               = filter (fun i => existsb (has_video_id i) (videos st))
                   (p_videos (pp_playlist pp)) /\
               Forall (fun v => In v (videos st)) (pp_videos pp)) pps).
Proof.
  split.
  - intros p Hvalid Hfind. unfold getPlaylistById. rewrite Hvalid, Hfind. cbn [negb].
    eexists. split; [reflexivity|]. split; [reflexivity|].
    split; [apply populate_ids|apply populate_stored].
  - intros Hvalid. unfold getUserPlaylists. rewrite Hvalid. cbn [negb].
    eexists. split; [reflexivity|]. split.
    + rewrite map_map. cbn [populate pp_playlist]. apply map_id.
    + apply Forall_forall. intros pp Hpp. apply in_map_iff in Hpp.
      destruct Hpp as (p & <- & _).
      split; [apply populate_ids|apply populate_stored].
Qed.

(** ** Blank fields *)






(** ** Refusals *)


(** X22: [addVideoToPlaylist] does not look the video up: an identifier
    in canonical form that no stored video has is appended to the stored
    playlist with a 200.  The stored playlist then holds the reference,
    and the list of videos that [getPlaylistById] returns for it is the
    one from before the addition, with no video for the reference. *)
Theorem missing_video_can_be_added req st p :
  isValidObjectId (param req "playlistId") = true ->
  isValidObjectId (param req "videoId") = true ->
  toObjectId (param req "videoId") = param req "videoId" ->
  find (has_playlist_id (toObjectId (param req "playlistId"))) (playlists st) = Some p ->
  ~ In (param req "videoId") (p_videos p) ->
  find (has_video_id (param req "videoId")) (videos st) = None ->
  exists p' st' pp,
    addVideoToPlaylist req st
    = (ApiResponse 200 p' "Video added to playlist successfully", st') /\
    p_videos p' = (p_videos p ++ [param req "videoId"])%list /\
    find (has_playlist_id (toObjectId (param req "playlistId"))) (playlists st')
    = Some p' /\
    getPlaylistById req st' = (ApiResponse 200 pp "Playlist fetched successfully", st') /\
    pp_videos pp = pp_videos (populate st p) /\
    ~ In (param req "videoId") (map v_id (pp_videos pp)).
Proof.
  intros Hp Hv Hcanon Hfind Hin Hnone.
  destruct (find_has_playlist_id _ _ _ Hfind) as [_ Hid].
  assert (Hfind0 : find (has_playlist_id (p_id p)) (playlists st) = Some p)
    by now rewrite Hid.
  pose proof (save_videos_stored st p (p_videos p ++ [param req "videoId"])%list Hfind0)
    as Hstored.
  rewrite Hid in Hstored.
  set (p' := set_p_videos (p_videos p ++ [param req "videoId"]) p) in *.
  set (st' := save_videos p' st) in *.
  assert (Hsame : pp_videos (populate st' p') = pp_videos (populate st p)).
  { unfold populate, st', p'.
    cbn [pp_videos p_videos set_p_videos videos save_videos set_playlists].
    rewrite flat_map_app. cbn [flat_map]. rewrite Hnone. now rewrite !app_nil_r. }
  exists p', st', (populate st' p').
  split.
  { unfold addVideoToPlaylist. rewrite Hp, Hv, Hfind, Hcanon. cbn [negb orb].
    apply includes_not_In in Hin. rewrite Hin. reflexivity. }
  split; [reflexivity|]. split; [exact Hstored|]. split.
  { unfold getPlaylistById. rewrite Hp, Hstored. reflexivity. }
  split; [exact Hsame|].
  rewrite Hsame, populate_ids. intros H. apply filter_In in H. destruct H as [H _].
  contradiction.
Qed.


End Controllers.

(** ** The handlers on concrete requests *)

Example parseInt_10 : JS.parseInt "10" = Some 10.
Proof. reflexivity. Qed.

Example parseInt_prefix : JS.parseInt "  42px" = Some 42.
Proof. reflexivity. Qed.

Example parseInt_hex : JS.parseInt "0x1F" = Some 31.
Proof. reflexivity. Qed.

Example parseInt_negative : JS.parseInt "-7" = Some (-7).
Proof. reflexivity. Qed.

Example parseInt_nan : JS.parseInt "abc" = None.
Proof. reflexivity. Qed.

Example parseInt_empty : JS.parseInt "" = None.
Proof. reflexivity. Qed.

Example trim_blank : JS.trim "   " = "".
Proof. reflexivity. Qed.

Example trim_word : JS.trim "  a b " = "a b".
Proof. reflexivity. Qed.

Example ceil_div_7_2 : JS.ceil_div 7 2 = 4.
Proof. reflexivity. Qed.

Example path_dotted : Mongo.path "owner.username" = ["owner"; "username"].
Proof. reflexivity. Qed.

Example validFieldPath_empty : Mongo.validFieldPath "" = false.
Proof. reflexivity. Qed.

(** The feed of the sample store: newest first, the draft left out. *)
Example feed_of_sample_store :
  getAllVideos Sample.isValidObjectId Sample.toObjectId Sample.regex
    Sample.req_feed Sample.store
  = (ApiResponse 200
       ([Sample.item3; Sample.item1],
        {| currentPage := Some 1; totalPages := Some 1; totalVideos := 2;
           limit := Some 10 |})
       "Videos fetched successfully!", Sample.store).
Proof. reflexivity. Qed.

Example stats_of_alice :
  fst (getChannelStats (Sample.request (Some Sample.alice_id) [] [] []) Sample.store)
  = ApiResponse 200
      {| totalSubscribers := 1; cs_totalVideos := 2; totalViews := 5; totalLikes := 1 |}
      "Channel stats fetched successfully".
Proof. reflexivity. Qed.

(** ** Instances of the theorems *)

Lemma getAllVideos_only_published_witness :
  isPublished (item_video Sample.item3) = true /\
  In (item_video Sample.item3) (videos Sample.store).
Proof.
  apply (getAllVideos_only_published Sample.isValidObjectId Sample.toObjectId Sample.regex
           Sample.req_feed Sample.store 200 [Sample.item3; Sample.item1]
           {| currentPage := Some 1; totalPages := Some 1; totalVideos := 2;
              limit := Some 10 |}
           "Videos fetched successfully!" Sample.store).
  - reflexivity.
  - simpl. left. reflexivity.
Defined.

(** C4, as stated, fails on the feed of the sample store: the owner
    sub-object of its items has a field _id, which is none of fullName,
    username and avatar. *)
Lemma owner_fields_counterexample :
  exists vs pg,
    getAllVideos Sample.isValidObjectId Sample.toObjectId Sample.regex
      Sample.req_feed Sample.store
    = (ApiResponse 200 (vs, pg) "Videos fetched successfully!", Sample.store) /\
    ~ (forall it, In it vs ->
         exists d, item_owner it = Some d /\
                   forall k, In k (doc_keys d) <-> In k ["fullName"; "username"; "avatar"]).
Proof.
  do 2 eexists. split; [reflexivity|].
  intros H. destruct (H Sample.item3 (or_introl eq_refl)) as (d & Hd & Hk).
  injection Hd as <-.
  assert (Hin : In "_id" ["fullName"; "username"; "avatar"]).
  { apply Hk. simpl. left. reflexivity. }
  simpl in Hin. intuition discriminate.
Qed.

Lemma owner_projection_fields_witness :
  owner_shape Sample.store Sample.item3 /\
  owner_shape Sample.store (lookup_owner Sample.store Sample.v2).
Proof.
  split.
  - apply (proj1 (owner_projection_fields Sample.isValidObjectId Sample.toObjectId
                    Sample.regex)
             Sample.req_feed Sample.store 200 [Sample.item3; Sample.item1]
             {| currentPage := Some 1; totalPages := Some 1; totalVideos := 2;
                limit := Some 10 |}
             "Videos fetched successfully!" Sample.store).
    + reflexivity.
    + simpl. left. reflexivity.
  - apply (proj2 (owner_projection_fields Sample.isValidObjectId Sample.toObjectId
                    Sample.regex)
             Sample.req_video2 Sample.store 200 (lookup_owner Sample.store Sample.v2)
             "Video fetched successfully!"
             (snd (getVideoById Sample.isValidObjectId Sample.toObjectId
                     Sample.req_video2 Sample.store))).
    reflexivity.
Defined.



Lemma sample_store_unique_ids :
  unique_video_ids Sample.store.
Proof.
  unfold unique_video_ids. simpl.
  repeat (apply NoDup_cons; [simpl; intuition discriminate|]). apply NoDup_nil.
Qed.

(** A fetch of [v1] takes its counter from 5 to 6; after the fetch, a
    toggle and a deletion of other videos and a second fetch, it is 7. *)
Lemma views_incremented_and_monotone_witness :
  (stored_views Sample.v1_id Sample.store = Some 5 /\
   stored_views Sample.v1_id
     (snd (getVideoById Sample.isValidObjectId Sample.toObjectId
             Sample.req_video1 Sample.store)) = Some (5 + 1)) /\
  5 <= 7.
Proof.
  pose proof (views_incremented_and_monotone Sample.isValidObjectId Sample.toObjectId
                Sample.regex Sample.uploadOnCloudinary 0 true true true) as [Hinc Hmono].
  split.
  - destruct (Hinc Sample.req_video1 Sample.store 200
                (lookup_owner Sample.store Sample.v1) "Video fetched successfully!"
                (snd (getVideoById Sample.isValidObjectId Sample.toObjectId
                        Sample.req_video1 Sample.store)) eq_refl) as (H0 & H1 & _).
    split; [exact H0|exact H1].
  - apply (Hmono [GetVideoById Sample.req_video1; TogglePublishStatus Sample.req_toggle;
                  DeleteVideo Sample.req_delete3; GetVideoById Sample.req_video1]
             Sample.store Sample.v1_id 5 7).
    + exact sample_store_unique_ids.
    + repeat (apply Forall_cons; [simpl; discriminate|]). apply Forall_nil.
    + reflexivity.
    + reflexivity.
Defined.

(** The unpublished [v2] is returned to an anonymous caller, and to alice
    alike. *)
Lemma getVideoById_ignores_publish_flag_and_caller_witness :
  isPublished Sample.v2 = false /\
  user Sample.req_video2 = None /\
  (exists st',
      getVideoById Sample.isValidObjectId Sample.toObjectId Sample.req_video2 Sample.store
      = (ApiResponse 200 (lookup_owner Sample.store Sample.v2)
           "Video fetched successfully!", st') /\
      stored_views (v_id Sample.v2) st' = Some (views Sample.v2 + 1)) /\
  getVideoById Sample.isValidObjectId Sample.toObjectId Sample.req_toggle Sample.store
  = getVideoById Sample.isValidObjectId Sample.toObjectId Sample.req_video2 Sample.store.
Proof.
  split; [reflexivity|]. split; [reflexivity|].
  destruct (getVideoById_ignores_publish_flag_and_caller Sample.isValidObjectId
              Sample.toObjectId Sample.req_video2 Sample.store Sample.v2
              eq_refl eq_refl) as [Hget Hany].
  split; [exact Hget|]. apply Hany. reflexivity.
Defined.

(** alice publishes her draft [v2]; a second toggle restores the store. *)
Lemma togglePublishStatus_flips_witness :
  exists st',
    togglePublishStatus Sample.isValidObjectId Sample.toObjectId
      Sample.req_toggle Sample.store
    = (ApiResponse 200 (set_isPublished true Sample.v2)
         "Video published successfully!", st') /\
    option_map isPublished (find (has_video_id Sample.v2_id) (videos st')) = Some true /\
    snd (togglePublishStatus Sample.isValidObjectId Sample.toObjectId
           Sample.req_toggle st') = Sample.store.
Proof.
  exact (togglePublishStatus_flips Sample.isValidObjectId Sample.toObjectId
           Sample.req_toggle Sample.store Sample.v2 eq_refl eq_refl eq_refl).
Defined.

(** carol owns no video and has no subscriber. *)
Lemma getChannelStats_empty_channel_witness :
  getChannelStats Sample.req_stats_carol Sample.store
  = (ApiResponse 200
       {| totalSubscribers := 0; cs_totalVideos := 0; totalViews := 0; totalLikes := 0 |}
       "Channel stats fetched successfully", Sample.store).
Proof.
  apply (getChannelStats_empty_channel Sample.req_stats_carol Sample.store Sample.carol_id).
  - reflexivity.
  - simpl. intros v [<-|[<-|[<-|[]]]]; discriminate.
  - simpl. intros s [<-|[]]; discriminate.
Defined.

Lemma redundant_membership_change_rejected_witness :
  addVideoToPlaylist Sample.isValidObjectId Sample.toObjectId
    Sample.req_add_again Sample.store
  = (ApiError 400 "Video already in playlist", Sample.store) /\
  removeVideoFromPlaylist Sample.isValidObjectId Sample.toObjectId
    Sample.req_remove_absent Sample.store
  = (ApiError 400 "Video not found in playlist", Sample.store).
Proof.
  split.
  - apply (proj1 (redundant_membership_change_rejected Sample.isValidObjectId
                    Sample.toObjectId Sample.req_add_again Sample.store Sample.pl1
                    eq_refl eq_refl eq_refl)).
    simpl. left. reflexivity.
  - apply (proj2 (redundant_membership_change_rejected Sample.isValidObjectId
                    Sample.toObjectId Sample.req_remove_absent Sample.store Sample.pl1
                    eq_refl eq_refl eq_refl)).
    simpl. intros [H|[]]. discriminate H.
Defined.

(** The playlist holds the reference ...ab; the request spells it ...AB. *)
Lemma present_identifier_in_another_spelling_witness :
  fst (addVideoToPlaylist Sample.isValidObjectId Sample.toObjectId
         Sample.req_add_upper_case Sample.store_with_pl3)
  = ApiResponse 200 (set_p_videos [Sample.ab_id; Sample.ab_id] Sample.pl3)
      "Video added to playlist successfully" /\
  ~ NoDup [Sample.ab_id; Sample.ab_id] /\
  removeVideoFromPlaylist Sample.isValidObjectId Sample.toObjectId
    Sample.req_add_upper_case Sample.store_with_pl3
  = (ApiError 400 "Video not found in playlist", Sample.store_with_pl3).
Proof.
  assert (Hheld : In (Sample.toObjectId (param Sample.req_add_upper_case "videoId"))
                    (p_videos Sample.pl3)) by (simpl; left; reflexivity).
  assert (Hspelt : ~ In (param Sample.req_add_upper_case "videoId") (p_videos Sample.pl3)).
  { simpl. intros [H|[]]. discriminate H. }
  destruct (present_identifier_in_another_spelling Sample.isValidObjectId
              Sample.toObjectId Sample.req_add_upper_case Sample.store_with_pl3
              Sample.pl3 eq_refl eq_refl eq_refl Hheld Hspelt)
    as (Hadd & _ & Hdup & Hremove).
  split; [rewrite Hadd; reflexivity|]. split; [exact Hdup|exact Hremove].
Defined.

(** bob extends and shortens the playlist of alice. *)
Lemma playlist_membership_open_to_non_owner_witness :
  fst (addVideoToPlaylist Sample.isValidObjectId Sample.toObjectId
         Sample.req_bob_adds Sample.store)
  = ApiResponse 200 (set_p_videos [Sample.v1_id; Sample.v3_id] Sample.pl1)
      "Video added to playlist successfully" /\
  fst (removeVideoFromPlaylist Sample.isValidObjectId Sample.toObjectId
         Sample.req_bob_removes Sample.store)
  = ApiResponse 200 (set_p_videos [] Sample.pl1)
      "Video removed from playlist successfully".
Proof.
  assert (Hbob : Sample.bob_id <> p_owner Sample.pl1) by discriminate.
  split.
  - destruct (proj1 (playlist_membership_open_to_non_owner Sample.isValidObjectId
                       Sample.toObjectId Sample.req_bob_adds Sample.store Sample.pl1
                       Sample.bob_id eq_refl eq_refl eq_refl eq_refl Hbob))
      as (H & _ & _).
    + simpl. intros [E|[]]. discriminate E.
    + rewrite H. reflexivity.
  - destruct (proj2 (playlist_membership_open_to_non_owner Sample.isValidObjectId
                       Sample.toObjectId Sample.req_bob_removes Sample.store Sample.pl1
                       Sample.bob_id eq_refl eq_refl eq_refl eq_refl Hbob))
      as (H & _ & _).
    + simpl. left. reflexivity.
    + rewrite H. reflexivity.
Defined.

(** The same requests sent to the guarded handlers end in 403. *)
Example bob_cannot_delete_the_playlist :
  deletePlaylist Sample.isValidObjectId Sample.toObjectId
    Sample.req_bob_adds Sample.store
  = (ApiError 403 "You are not authorized to delete this playlist", Sample.store).
Proof. reflexivity. Qed.

(** Without a name, the request of bob reaches [Playlist.create]: under a
    schema that requires the name the model throws, under one that does
    not a nameless playlist is stored. *)
Lemma createPlaylist_absent_name_passes_witness :
  createPlaylist true true Sample.pl2_id Sample.req_create_nameless Sample.store
  = (Thrown "MongooseError", Sample.store) /\
  fst (createPlaylist false false Sample.pl2_id Sample.req_create_nameless Sample.store)
  = ApiResponse 201
      {| p_id := Sample.pl2_id; p_name := None; p_description := Some "x";
         p_videos := []; p_owner := Sample.bob_id |}
      "Playlist created successfully".
Proof.
  assert (Hd : JS.trim "x" <> "") by discriminate.
  assert (Hnames : forall p, In p (playlists Sample.store) ->
                             p_owner p = Sample.bob_id -> p_name p <> None).
  { simpl. intros p [<-|[]]. discriminate. }
  split.
  - exact (createPlaylist_absent_name_passes true true Sample.pl2_id
             Sample.req_create_nameless Sample.store Sample.bob_id "x"
             eq_refl eq_refl Hd eq_refl Hnames).
  - rewrite (createPlaylist_absent_name_passes false false Sample.pl2_id
               Sample.req_create_nameless Sample.store Sample.bob_id "x"
               eq_refl eq_refl Hd eq_refl Hnames).
    reflexivity.
Defined.

(** ** Instances of the further properties *)

Lemma sample_store_unique_playlist_ids :
  unique_playlist_ids Sample.store.
Proof.
  unfold unique_playlist_ids. simpl.
  apply NoDup_cons; [simpl; intuition|apply NoDup_nil].
Qed.

(** The deletion of [v1] that bob asks for fails and writes nothing. *)
Lemma failed_or_reading_request_writes_nothing_witness :
  exec Sample.isValidObjectId Sample.toObjectId Sample.regex Sample.uploadOnCloudinary
    0 true true true (DeleteVideo Sample.req_bob_deletes1) Sample.store
  = Sample.store.
Proof.
  apply failed_or_reading_request_writes_nothing. left. reflexivity.
Defined.

(** bob cannot rename the video of alice. *)
Lemma video_changes_need_the_owner_witness :
  exists n,
    find (has_video_id Sample.v1_id)
      (videos (exec Sample.isValidObjectId Sample.toObjectId Sample.regex
                 Sample.uploadOnCloudinary 0 true true true
                 (UpdateVideo Sample.req_bob_renames1) Sample.store))
    = Some (set_views n Sample.v1) /\ views Sample.v1 <= n.
Proof.
  apply video_changes_need_the_owner.
  - reflexivity.
  - discriminate.
Defined.

Lemma identifiers_stay_unique_witness :
  unique_video_ids
    (run Sample.isValidObjectId Sample.toObjectId Sample.regex Sample.uploadOnCloudinary
       0 true true true
       [PublishAVideo Sample.v4_id 400 Sample.req_publish;
        CreatePlaylist Sample.pl2_id Sample.req_bob_creates_favorites;
        DeleteVideo Sample.req_delete3] Sample.store) /\
  unique_playlist_ids
    (run Sample.isValidObjectId Sample.toObjectId Sample.regex Sample.uploadOnCloudinary
       0 true true true
       [PublishAVideo Sample.v4_id 400 Sample.req_publish;
        CreatePlaylist Sample.pl2_id Sample.req_bob_creates_favorites;
        DeleteVideo Sample.req_delete3] Sample.store).
Proof.
  apply identifiers_stay_unique.
  - exact sample_store_unique_ids.
  - exact sample_store_unique_playlist_ids.
Defined.

(** After a fetch, a rename and an unpublication, [v1] is still the video
    of alice with the same file. *)
Lemma video_identity_is_fixed_witness :
  same_identity Sample.v1
    (set_isPublished false
       (set_fields (Some "A new title") None None (set_views 6 Sample.v1))).
Proof.
  apply (video_identity_is_fixed Sample.isValidObjectId Sample.toObjectId Sample.regex
           Sample.uploadOnCloudinary 0 true true true
           [GetVideoById Sample.req_video1; UpdateVideo Sample.req_alice_renames1;
            TogglePublishStatus Sample.req_alice_unpublishes1]
           Sample.store Sample.v1_id).
  - exact sample_store_unique_ids.
  - repeat (apply Forall_cons; [simpl; discriminate|]). apply Forall_nil.
  - reflexivity.
  - reflexivity.
Defined.

(** bob adds a video to the playlist of alice and alice describes it anew:
    the playlist is still hers. *)
Lemma playlist_owner_is_fixed_witness :
  p_id (set_p_description "Best of"
          (set_p_videos [Sample.v1_id; Sample.v3_id] Sample.pl1)) = p_id Sample.pl1 /\
  p_owner (set_p_description "Best of"
             (set_p_videos [Sample.v1_id; Sample.v3_id] Sample.pl1)) = p_owner Sample.pl1.
Proof.
  apply (playlist_owner_is_fixed Sample.isValidObjectId Sample.toObjectId Sample.regex
           Sample.uploadOnCloudinary 0 true true true
           [AddVideoToPlaylist Sample.req_bob_adds;
            UpdatePlaylist Sample.req_alice_describes_pl1]
           Sample.store Sample.pl1_id).
  - exact sample_store_unique_playlist_ids.
  - repeat (apply Forall_cons; [simpl; discriminate|]). apply Forall_nil.
  - reflexivity.
  - reflexivity.
Defined.

(** alice sends a title and an empty description: only the title changes. *)
Lemma updateVideo_partial_update_witness :
  exists v' st',
    updateVideo Sample.isValidObjectId Sample.toObjectId Sample.uploadOnCloudinary
      Sample.req_alice_renames1 Sample.store
    = (ApiResponse 200 (Some v') "Video updated successfully!", st') /\
    find (has_video_id (Sample.toObjectId (param Sample.req_alice_renames1 "videoId")))
      (videos st') = Some v' /\
    title v' = "A new title" /\
    description v' = "first video" /\
    thumbnail v' = thumbnail Sample.v1 /\
    views v' = views Sample.v1 /\ isPublished v' = isPublished Sample.v1 /\
    same_identity Sample.v1 v'.
Proof.
  exact (proj1 (updateVideo_partial_update Sample.isValidObjectId Sample.toObjectId
                  Sample.uploadOnCloudinary Sample.req_alice_renames1 Sample.store
                  Sample.v1 eq_refl eq_refl eq_refl eq_refl) None eq_refl).
Defined.


(** bob deletes [v3]; the like and the playlist entries of other videos
    stay, and [v3] is gone. *)
Lemma deleteVideo_then_not_found_witness :
  exists st',
    deleteVideo Sample.isValidObjectId Sample.toObjectId Sample.req_delete3 Sample.store
    = (ApiResponse 200 tt "Video deleted successfully!", st') /\
    (forall req', param req' "videoId" = param Sample.req_delete3 "videoId" ->
       getVideoById Sample.isValidObjectId Sample.toObjectId req' st'
       = (ApiError 404 "Video not found", st')) /\
    (forall j, j <> Sample.toObjectId (param Sample.req_delete3 "videoId") ->
       find (has_video_id j) (videos st') = find (has_video_id j) (videos Sample.store)) /\
    playlists st' = playlists Sample.store /\ likes st' = likes Sample.store.
Proof.
  exact (deleteVideo_then_not_found Sample.isValidObjectId Sample.toObjectId
           Sample.req_delete3 Sample.store Sample.v3
           sample_store_unique_ids eq_refl eq_refl eq_refl).
Defined.

Lemma deletePlaylist_then_not_found_witness :
  exists st',
    deletePlaylist Sample.isValidObjectId Sample.toObjectId
      Sample.req_alice_deletes_pl1 Sample.store
    = (ApiResponse 200 tt "Playlist deleted successfully", st') /\
    (forall req', param req' "playlistId" = param Sample.req_alice_deletes_pl1 "playlistId" ->
       getPlaylistById Sample.isValidObjectId Sample.toObjectId req' st'
       = (ApiError 404 "Playlist not found", st')) /\
    (forall j, j <> Sample.toObjectId (param Sample.req_alice_deletes_pl1 "playlistId") ->
       find (has_playlist_id j) (playlists st')
       = find (has_playlist_id j) (playlists Sample.store)) /\
    videos st' = videos Sample.store.
Proof.
  exact (deletePlaylist_then_not_found Sample.isValidObjectId Sample.toObjectId
           Sample.req_alice_deletes_pl1 Sample.store Sample.pl1
           sample_store_unique_playlist_ids eq_refl eq_refl eq_refl).
Defined.

(** alice adds [v3] to her playlist and removes it again. *)
Lemma add_then_remove_round_trip_witness :
  exists st',
    snd (addVideoToPlaylist Sample.isValidObjectId Sample.toObjectId
           Sample.req_alice_adds3 Sample.store) = st' /\
    option_map p_videos
      (find (has_playlist_id
               (Sample.toObjectId (param Sample.req_alice_adds3 "playlistId")))
         (playlists st'))
    = Some (p_videos Sample.pl1 ++ [param Sample.req_alice_adds3 "videoId"])%list /\
    addVideoToPlaylist Sample.isValidObjectId Sample.toObjectId Sample.req_alice_adds3 st'
    = (ApiError 400 "Video already in playlist", st') /\
    removeVideoFromPlaylist Sample.isValidObjectId Sample.toObjectId
      Sample.req_alice_adds3 st'
    = (ApiResponse 200 Sample.pl1 "Video removed from playlist successfully", Sample.store).
Proof.
  apply (add_then_remove_round_trip Sample.isValidObjectId Sample.toObjectId
           Sample.req_alice_adds3 Sample.store Sample.pl1 eq_refl eq_refl eq_refl eq_refl).
  simpl. intros [H|[]]. discriminate H.
Defined.

(** alice: one subscriber, two videos with 5 views, one like. *)
Lemma getChannelStats_rollup_witness :
  exists stats,
    getChannelStats Sample.req_stats_alice Sample.store
    = (ApiResponse 200 stats "Channel stats fetched successfully", Sample.store) /\
    totalSubscribers stats = 1 /\ cs_totalVideos stats = 2 /\
    totalViews stats = 5 /\ totalLikes stats = 1.
Proof.
  destruct (getChannelStats_rollup Sample.req_stats_alice Sample.store Sample.alice_id
              eq_refl) as (stats & Hget & Hs & Hv & Hw & Hl).
  exists stats. split; [exact Hget|].
  split; [exact Hs|]. split; [exact Hv|]. split; [exact Hw|exact Hl].
Defined.


(** The feed filtered by the videos of alice that match "intro". *)
Lemma getAllVideos_applies_filters_witness :
  (forall u, query Sample.req_feed_filtered "userId" = Some u -> u <> "" ->
     Sample.isValidObjectId u = true /\
     v_owner (item_video Sample.item1) = Sample.toObjectId u) /\
  (forall q, query Sample.req_feed_filtered "query" = Some q -> q <> "" ->
     exists test, Sample.regex q = Some test /\
       test (title (item_video Sample.item1))
       || test (description (item_video Sample.item1)) = true).
Proof.
  apply (getAllVideos_applies_filters Sample.isValidObjectId Sample.toObjectId Sample.regex
           Sample.req_feed_filtered Sample.store 200 [Sample.item1]
           {| currentPage := Some 1; totalPages := Some 1; totalVideos := 1;
              limit := Some 10 |}
           "Videos fetched successfully!" Sample.store).
  - reflexivity.
  - simpl. left. reflexivity.
Defined.


(** The feed without sort parameters, and the feed by ascending views. *)
Lemma listings_are_ordered_witness :
  StronglySorted (ordered_by (fun it => createdAt (item_video it)) true)
    [Sample.item3; Sample.item1] /\
  StronglySorted (ordered_by (fun it => views (item_video it)) false)
    [Sample.item1; Sample.item3].
Proof.
  split.
  - apply (proj1 (listings_are_ordered Sample.isValidObjectId Sample.toObjectId
                    Sample.regex Sample.req_feed Sample.store)
             200 [Sample.item3; Sample.item1]
             {| currentPage := Some 1; totalPages := Some 1; totalVideos := 2;
                limit := Some 10 |}
             "Videos fetched successfully!" Sample.store eq_refl).
    reflexivity.
  - apply (proj2 (proj1 (listings_are_ordered Sample.isValidObjectId Sample.toObjectId
                           Sample.regex Sample.req_feed_by_views Sample.store)
                    200 [Sample.item1; Sample.item3]
                    {| currentPage := Some 1; totalPages := Some 1; totalVideos := 2;
                       limit := Some 10 |}
                    "Videos fetched successfully!" Sample.store eq_refl) "asc").
    + reflexivity.
    + reflexivity.
    + discriminate.
Defined.

(** carol publishes a video; it is stored after the three others. *)
Lemma publishAVideo_stores_uploaded_video_witness :
  publishAVideo Sample.uploadOnCloudinary 0 true Sample.v4_id 400
    Sample.req_publish Sample.store
  = (ApiResponse 201 Sample.v4 "Video published successfully!",
     set_videos Sample.store (videos Sample.store ++ [Sample.v4])%list) /\
  find (has_video_id Sample.v4_id)
    (videos (set_videos Sample.store (videos Sample.store ++ [Sample.v4])%list))
  = Some Sample.v4.
Proof.
  assert (Ht : "Hello" <> "") by discriminate.
  assert (Hd : "world" <> "") by discriminate.
  pose proof (proj1 (publishAVideo_stores_uploaded_video Sample.uploadOnCloudinary 0 true
                       Sample.v4_id 400 Sample.req_publish Sample.store)
                "Hello" "world" "a.mp4" "a.png"
                "https://res.cloudinary.com/videos/a.mp4" 60
                "https://res.cloudinary.com/thumbnails/a.png" 60 Sample.carol_id
                eq_refl Ht eq_refl Hd eq_refl eq_refl eq_refl eq_refl eq_refl eq_refl)
    as Hget.
  split; [exact Hget|].
  destruct (proj2 (publishAVideo_stores_uploaded_video Sample.uploadOnCloudinary 0 true
                     Sample.v4_id 400 Sample.req_publish Sample.store)
              201 Sample.v4 "Video published successfully!" _ Hget)
    as (t & d & vp & tp & td & H).
  apply H.
Defined.


(** alice unpublishes [v1]: it leaves the feed and stays fetchable. *)
Lemma unpublished_video_leaves_the_feed_witness :
  exists st',
    snd (togglePublishStatus Sample.isValidObjectId Sample.toObjectId
           Sample.req_alice_unpublishes1 Sample.store) = st' /\
    (forall req' code vs pg msg st'',
        getAllVideos Sample.isValidObjectId Sample.toObjectId Sample.regex req' st'
        = (ApiResponse code (vs, pg) msg, st'') ->
        forall it, In it vs -> v_id (item_video it) <> v_id Sample.v1) /\
    (forall req', param req' "videoId" = param Sample.req_alice_unpublishes1 "videoId" ->
        exists it st'',
          getVideoById Sample.isValidObjectId Sample.toObjectId req' st'
          = (ApiResponse 200 it "Video fetched successfully!", st'') /\
          item_video it = set_isPublished false Sample.v1).
Proof.
  exact (unpublished_video_leaves_the_feed Sample.isValidObjectId Sample.toObjectId
           Sample.regex Sample.req_alice_unpublishes1 Sample.store Sample.v1
           sample_store_unique_ids eq_refl eq_refl eq_refl eq_refl).
Defined.

Lemma playlists_are_populated_witness :
  (exists pp,
      getPlaylistById Sample.isValidObjectId Sample.toObjectId
        Sample.req_playlist1 Sample.store
      = (ApiResponse 200 pp "Playlist fetched successfully", Sample.store) /\
      pp_playlist pp = Sample.pl1 /\
      map v_id (pp_videos pp)
      = filter (fun i => existsb (has_video_id i) (videos Sample.store))
          (p_videos Sample.pl1) /\
      Forall (fun v => In v (videos Sample.store)) (pp_videos pp)) /\
  (exists pps,
      getUserPlaylists Sample.isValidObjectId Sample.toObjectId
        Sample.req_playlists_of_alice Sample.store
      = (ApiResponse 200 pps "User playlists fetched successfully", Sample.store) /\
      map pp_playlist pps = [Sample.pl1]).
Proof.
  destruct (playlists_are_populated Sample.isValidObjectId Sample.toObjectId
              Sample.req_playlist1 Sample.store) as [Hone _].
  destruct (playlists_are_populated Sample.isValidObjectId Sample.toObjectId
              Sample.req_playlists_of_alice Sample.store) as [_ Hall].
  split; [exact (Hone Sample.pl1 eq_refl eq_refl)|].
  destruct (Hall eq_refl) as (pps & Hget & Hmap & _).
  exists pps. split; [exact Hget|exact Hmap].
Defined.



(** alice adds an identifier that no video has. *)
Lemma missing_video_can_be_added_witness :
  exists p' st' pp,
    addVideoToPlaylist Sample.isValidObjectId Sample.toObjectId
      Sample.req_alice_adds_missing Sample.store
    = (ApiResponse 200 p' "Video added to playlist successfully", st') /\
    p_videos p'
    = (p_videos Sample.pl1 ++ [param Sample.req_alice_adds_missing "videoId"])%list /\
    find (has_playlist_id
            (Sample.toObjectId (param Sample.req_alice_adds_missing "playlistId")))
      (playlists st')
    = Some p' /\
    getPlaylistById Sample.isValidObjectId Sample.toObjectId
      Sample.req_alice_adds_missing st'
    = (ApiResponse 200 pp "Playlist fetched successfully", st') /\
    pp_videos pp = pp_videos (populate Sample.store Sample.pl1) /\
    ~ In (param Sample.req_alice_adds_missing "videoId") (map v_id (pp_videos pp)).
Proof.
  apply (missing_video_can_be_added Sample.isValidObjectId Sample.toObjectId
           Sample.req_alice_adds_missing Sample.store Sample.pl1
           eq_refl eq_refl eq_refl eq_refl).
  - simpl. intros [H|[]]. discriminate H.
  - reflexivity.
Defined.

